(** * HabitFund contributor data: [update_contributions.py]

    A shallow embedding of the script that turns the contributor sheet into
    per-country JSON files plus an index, and of the properties its
    specification states about it.

    Python values are modelled as follows.
    - A [str] is the list of its Unicode code points ([N]); literals are
      written with [u "..."] for ASCII text and as explicit code points for
      the emoji of the log lines.  [str.lower] and [str.upper] are the ASCII
      mapping on ASCII strings and a parameter elsewhere.
    - An [int] is a [Z].
    - Effects ([print], the country lookup, the webhook request, the JSON
      dumps) append events to a trace; exceptions are an explicit result.
      The lookup, the webhook transport and the sheet download are
      parameters of a run and may raise.
    - The first layer describes a run on a host that refuses nothing:
      [print], [os.makedirs] and the file writes are events that always
      succeed, the webhook URL is one [Request] accepts, and a sheet cell is
      a string or missing ([fillna] turns the missing ones into the empty
      string).
    - The module [Fallible] has the notifier, the resolver and the record
      builder on a host that can refuse: a console that cannot encode a
      line, a webhook URL [Request] cannot parse, cells that pandas read as
      numbers.  On a host that refuses nothing the two layers agree.

    The module-level check of [GOOGLE_SHEET_ID], which exits before any
    function runs, is not part of the embedding. *)

From Stdlib Require Import ZArith NArith List Bool Lia String Ascii DecimalString.
From Stdlib Require DecimalPos DecimalN.
From Stdlib Require Import Sorted.
Import ListNotations.

Set Implicit Arguments.

(** ** Python strings *)

Module PyStr.

Definition char := N.
Definition str := list char.

(** An ASCII literal as a Python string. *)
Definition u (s : string) : str := map N_of_ascii (list_ascii_of_string s).

Definition str_eqb (a b : str) : bool :=
  if list_eq_dec N.eq_dec a b then true else false.

(** [s.startswith(p)] *)
Fixpoint startswith (p s : str) : bool :=
  match p, s with
  | [], _ => true
  | _ :: _, [] => false
  | a :: p', b :: s' => N.eqb a b && startswith p' s'
  end.

(** [s.split(sep)] for a non-empty [sep] (Python raises [ValueError] on the
    empty separator; both call sites pass a literal).  The scan goes left to
    right; [skip] counts the characters of a separator just matched that are
    still to be passed over, and [cur] is the piece being collected. *)
Fixpoint split_go (sep : str) (skip : nat) (cur : str) (s : str) : list str :=
  match s with
  | [] => [cur]
  | c :: s' =>
      match skip with
      | S k => split_go sep k cur s'
      | O =>
          if startswith sep s
          then cur :: split_go sep (List.length sep - 1) [] s'
          else split_go sep 0 (cur ++ [c]) s'
      end
  end.

Definition split (sep s : str) : list str := split_go sep 0 [] s.

(** [s.replace(old, new)] for a non-empty [old]. *)
Fixpoint replace_go (old new : str) (skip : nat) (s : str) : str :=
  match s with
  | [] => []
  | c :: s' =>
      match skip with
      | S k => replace_go old new k s'
      | O =>
          if startswith old s
          then new ++ replace_go old new (List.length old - 1) s'
          else c :: replace_go old new 0 s'
      end
  end.

Definition replace (old new s : str) : str := replace_go old new 0 s.

(** [c.isspace()]: the code points CPython's [_PyUnicode_IsWhitespace]
    accepts, which are the ones [str.strip()] removes. *)
Definition isspace (c : char) : bool :=
  ((9 <=? c) && (c <=? 13) || (28 <=? c) && (c <=? 32)
   || (c =? 133) || (c =? 160) || (c =? 5760)
   || (8192 <=? c) && (c <=? 8202)
   || (c =? 8232) || (c =? 8233) || (c =? 8239) || (c =? 8287)
   || (c =? 12288))%N.

Fixpoint lstrip (s : str) : str :=
  match s with
  | [] => []
  | c :: s' => if isspace c then lstrip s' else s
  end.

Definition rstrip (s : str) : str := rev (lstrip (rev s)).

(** [s.strip()] *)
Definition strip (s : str) : str := rstrip (lstrip s).

(** ASCII case mapping, the part of [str.lower] / [str.upper] that does not
    depend on the Unicode database. *)
Definition is_ascii (s : str) : bool := forallb (fun c => (c <? 128)%N) s.

Definition ascii_lower_char (c : char) : char :=
  if ((65 <=? c) && (c <=? 90))%N then (c + 32)%N else c.

Definition ascii_upper_char (c : char) : char :=
  if ((97 <=? c) && (c <=? 122))%N then (c - 32)%N else c.

(** Decimal digits of a non-negative integer, most significant first, by
    the Standard Library's decimal printer. *)
Definition digits (n : Z) : str :=
  u (NilZero.string_of_uint (N.to_uint (Z.to_N n))).

(** [str(n)], that is [format(n, "d")]. *)
Definition format_d (n : Z) : str :=
  if (n <? 0)%Z then 45%N :: digits (- n) else digits n.

(** [format(n, "0{width}d")]: sign-aware zero padding. *)
Definition format_0d (width : nat) (n : Z) : str :=
  if (n <? 0)%Z
  then 45%N :: repeat 48%N (width - 1 - List.length (digits (- n))) ++ digits (- n)
  else repeat 48%N (width - List.length (digits n)) ++ digits n.

(** [sep.join(pieces)] *)
Fixpoint join (sep : str) (pieces : list str) : str :=
  match pieces with
  | [] => []
  | [p] => p
  | p :: rest => p ++ sep ++ join sep rest
  end.

End PyStr.

Import PyStr.

(** ** Pure helpers of the record builder *)

(** Truthiness of a string: [not val] holds exactly for the empty one. *)
Definition truthy (s : str) : bool :=
  match s with [] => false | _ :: _ => true end.

Definition clean_category (val : str) : str :=
  if negb (truthy val) then u ""
  else strip (hd [] (split (u " - ") val)).

Definition index_to_id (file_code : str) (idx : Z) : str :=
  file_code ++ u "_" ++ format_0d 3 (idx + 1).

(** The [tags] expression of [main]:
    [[t.strip() for t in str(field).split(',')] if field else []]. *)
Definition tags_of (search_tags : str) : list str :=
  if truthy search_tags then map strip (split (u ",") search_tags) else [].

(** ** Effects: a trace of events and explicit exceptions *)

(** One source row of the sheet after [df.fillna("")]. *)
Record Row := {
  Country : str;
  Organization_Name : str;
  Category : str;
  Search_Tags : str;
  Official_URL : str;
  Description : str
}.

(** The [item] dictionaries of a per-country file. *)
Record ContributorRecord := {
  item_id : str;
  item_name : str;
  item_category : str;
  item_country : str;
  item_tags : list str;
  item_url : str;
  item_desc : str
}.

(** The dictionaries appended to [index_data]. *)
Record IndexEntry := {
  entry_country : str;
  entry_code : str;
  entry_flag : str;
  entry_path : str;
  entry_count : Z
}.

Inductive json_value :=
| Records (json_data : list ContributorRecord)
| Index (index_data : list IndexEntry).

Inductive event :=
| Print (line : str)                       (* print(line) *)
| CountriesLookup (name : str)             (* pycountry.countries.lookup(name) *)
| SlackCall (message : str)                (* entry into send_slack_message *)
| UrlOpen (url : str) (text : str)         (* urlopen of the request carrying {"text": text} *)
| Makedirs (path : str)                    (* os.makedirs(path, exist_ok=True) *)
| JsonDump (path : str) (data : json_value). (* json.dump(data, open(path, 'w')) *)

Definition trace := list event.

(** Python exceptions: instances of [Exception], and the other
    [BaseException]s, which only a bare [except:] catches. *)
Inductive exn :=
| Exception (text : str)
| BaseException (text : str).

Inductive res (A : Type) :=
| Ok (a : A)
| Raised (e : exn).
Arguments Ok {A} a.
Arguments Raised {A} e.

Definition M (A : Type) := trace -> res A * trace.

Definition ret {A} (a : A) : M A := fun t => (Ok a, t).

Definition bind {A B} (m : M A) (k : A -> M B) : M B :=
  fun t => match m t with
           | (Ok a, t') => k a t'
           | (Raised e, t') => (Raised e, t')
           end.

Definition emit (e : event) : M unit := fun t => (Ok tt, t ++ [e]).

Definition lift {A} (r : res A) : M A := fun t => (r, t).

(** [try: body  except: handler] *)
Definition try_except {A} (body handler : M A) : M A :=
  fun t => match body t with
           | (Ok a, t') => (Ok a, t')
           | (Raised _, t') => handler t'
           end.

(** [try: body  except Exception as e: handler] *)
Definition try_except_Exception {A} (body : M A) (handler : str -> M A) : M A :=
  fun t => match body t with
           | (Ok a, t') => (Ok a, t')
           | (Raised (Exception text), t') => handler text t'
           | (Raised (BaseException text), t') => (Raised (BaseException text), t')
           end.

Declare Scope py_scope.
Delimit Scope py_scope with py.
Notation "x <- m ;; k" := (bind m (fun x => k))
  (at level 61, m at next level, right associativity) : py_scope.
Notation "m ;; k" := (bind m (fun _ => k))
  (at level 61, right associativity) : py_scope.
Open Scope py_scope.

Definition print (line : str) : M unit := emit (Print line).

(** What [pycountry.countries.lookup] returns on success: the fields of the
    country object the script reads. *)
Module pycountry.
Record country := {
  alpha_2 : str;
  name : str
}.
End pycountry.

(** Outcome of building the request and opening it: the response status, or
    the exception raised ([URLError], [HTTPError], [ValueError], ...), all of
    them instances of [Exception]. *)
Inductive http_outcome :=
| Response (status : Z)
| TransportError (text : str).

(** Code points of the symbols used in the log lines. *)
Definition WARNING_SIGN : str := [9888; 65039]%N.
Definition CHECK_MARK : str := [9989]%N.
Definition CROSS_MARK : str := [10060]%N.
Definition ROCKET : str := [128640]%N.
Definition BULLET : str := [8226]%N.
Definition NEWLINE : str := [10]%N.

(** A raw sheet row as [pd.read_csv] yields it: a missing cell is [None]. *)
Record RawRow := {
  raw_Country : option str;
  raw_Organization_Name : option str;
  raw_Category : option str;
  raw_Search_Tags : option str;
  raw_Official_URL : option str;
  raw_Description : option str
}.

(** [df.fillna("")] *)
Definition fillna_cell (c : option str) : str :=
  match c with Some s => s | None => u "" end.

Definition fillna_row (r : RawRow) : Row :=
  {| Country := fillna_cell (raw_Country r);
     Organization_Name := fillna_cell (raw_Organization_Name r);
     Category := fillna_cell (raw_Category r);
     Search_Tags := fillna_cell (raw_Search_Tags r);
     Official_URL := fillna_cell (raw_Official_URL r);
     Description := fillna_cell (raw_Description r) |}.

Definition fillna (df : list RawRow) : list Row := map fillna_row df.

(** Order of Python strings: lexicographic on code points. *)
Fixpoint str_leb (a b : str) : bool :=
  match a, b with
  | [], _ => true
  | _ :: _, [] => false
  | x :: a', y :: b' => (x <? y)%N || (x =? y)%N && str_leb a' b'
  end.

Fixpoint insert_key (k : str) (ks : list str) : list str :=
  match ks with
  | [] => [k]
  | k' :: rest =>
      if str_eqb k k' then ks
      else if str_leb k k' then k :: ks
      else k' :: insert_key k rest
  end.

(** [df.groupby('Country')]: one group per distinct key, keys ascending, the
    rows of a group in sheet order. *)
Definition groupby_Country (df : list Row) : list (str * list Row) :=
  let keys := fold_right insert_key [] (map Country df) in
  map (fun k => (k, filter (fun r => str_eqb (Country r) k) df)) keys.

(** [enumerate(rows)] *)
Fixpoint enumerate_from {A} (i : Z) (l : list A) : list (Z * A) :=
  match l with
  | [] => []
  | x :: l' => (i, x) :: enumerate_from (i + 1) l'
  end.

Definition enumerate {A} (l : list A) : list (Z * A) := enumerate_from 0 l.

(** The exception table of [get_country_info]. *)
Definition exceptions : list (str * (str * str)) :=
  [ (u "South Korea", (u "kr", u "South Korea"));
    (u "United States", (u "us", u "United States"));
    (u "Global", (u "global", u "Global"));
    (u "Russia", (u "ru", u "Russia")) ].

(** [d[k]] guarded by [k in d]. *)
Fixpoint dict_get {V} (d : list (str * V)) (k : str) : option V :=
  match d with
  | [] => None
  | (k', v) :: d' => if str_eqb k k' then Some v else dict_get d' k
  end.

Definition UN_FLAG_URL : str := u "https://flagcdn.com/w40/un.png".

Section Script.

(** The environment of a run. *)

(** [str.lower] and [str.upper] outside ASCII (Unicode case mapping). *)
Variable unicode_lower unicode_upper : str -> str.
(** [pycountry.countries.lookup]. *)
Variable countries_lookup : str -> res pycountry.country.
(** [os.environ.get('SLACK_WEBHOOK_URL')]. *)
Variable env_SLACK_WEBHOOK_URL : option str.
(** The webhook transport: its outcome for a request with the given URL and
    message text, after the events so far. *)
Variable urlopen : trace -> str -> str -> http_outcome.
(** [pd.read_csv(SHEET_URL)]. *)
Variable read_csv : res (list RawRow).

Definition lower (s : str) : str :=
  if is_ascii s then map ascii_lower_char s else unicode_lower s.

Definition upper (s : str) : str :=
  if is_ascii s then map ascii_upper_char s else unicode_upper s.

(** Module level: the URL is stripped when it is set and non-empty. *)
Definition SLACK_WEBHOOK_URL : option str :=
  match env_SLACK_WEBHOOK_URL with
  | Some s => if truthy s then Some (strip s) else Some s
  | None => None
  end.

Definition send_slack_message (message : str) : M unit :=
  emit (SlackCall message) ;;
  match SLACK_WEBHOOK_URL with
  | None => print (WARNING_SIGN ++ u " SLACK_WEBHOOK_URL not set. Skipping notification.")
  | Some url =>
      if negb (truthy url)
      then print (WARNING_SIGN ++ u " SLACK_WEBHOOK_URL not set. Skipping notification.")
      else
        try_except_Exception
          (status <- (fun t => match urlopen t url message with
                               | Response status => (Ok status, t ++ [UrlOpen url message])
                               | TransportError text =>
                                   (Raised (Exception text), t ++ [UrlOpen url message])
                               end) ;;
           if (status =? 200)%Z
           then print (CHECK_MARK ++ u " Slack notification sent.")
           else print (WARNING_SIGN ++ u " Failed to send Slack notification: "
                         ++ format_d status))
          (fun e => print (WARNING_SIGN ++ u " Error sending Slack notification: " ++ e))
  end.

Definition get_country_info (name : str) : M (str * str * str) :=
  code_full_name <-
    match dict_get exceptions name with
    | Some (code, full_name) => ret (code, full_name)
    | None =>
        try_except
          (emit (CountriesLookup name) ;;
           lookup <- lift (countries_lookup name) ;;
           let code := lower (pycountry.alpha_2 lookup) in
           let full_name := pycountry.name lookup in
           ret (code, full_name))
          (let code := replace (u " ") (u "_") (lower name) in
           let full_name := name in
           let warning_msg :=
             WARNING_SIGN ++ u " Country lookup failed for '" ++ name
               ++ u "'. Using fallback code: '" ++ code ++ u "'" in
           print warning_msg ;;
           send_slack_message warning_msg ;;
           ret (code, full_name))
    end ;;
  let '(code, full_name) := code_full_name in
  let flag_url :=
    if str_eqb code (u "global")
    then UN_FLAG_URL
    else u "https://flagcdn.com/w40/" ++ code ++ u ".png" in
  ret (code, full_name, flag_url).

(** The body of the inner loop of [main]: the record of row [i] of a group. *)
Definition build_item (file_code : str) (i : Z) (row : Row) : ContributorRecord :=
  {| item_id := index_to_id file_code i;
     item_name := Organization_Name row;
     item_category := clean_category (Category row);
     item_country := upper file_code;
     item_tags := tags_of (Search_Tags row);
     item_url := Official_URL row;
     item_desc := Description row |}.

Definition build_json_data (file_code : str) (group : list Row) : list ContributorRecord :=
  fold_left (fun json_data '(i, row) => json_data ++ [build_item file_code i row])
            (enumerate group) [].

(** The loop over the groups, threading [index_data]. *)
Fixpoint for_groups (groups : list (str * list Row)) (index_data : list IndexEntry)
  : M (list IndexEntry) :=
  match groups with
  | [] => ret index_data
  | (country_name, group) :: rest =>
      info <- get_country_info country_name ;;
      let '(file_code, full_name, flag_url) := info in
      let file_name := file_code ++ u ".json" in
      let relative_path := u "contributors/" ++ file_name in
      let json_data := build_json_data file_code group in
      emit (JsonDump relative_path (Records json_data)) ;;
      let index_data := index_data ++
        [{| entry_country := full_name;
            entry_code := file_code;
            entry_flag := flag_url;
            entry_path := relative_path;
            entry_count := Z.of_nat (List.length json_data) |}] in
      print (CHECK_MARK ++ u " Saved " ++ relative_path ++ u " ("
               ++ format_d (Z.of_nat (List.length json_data)) ++ u " items)") ;;
      for_groups rest index_data
  end.

Definition main : M unit :=
  loaded <- try_except_Exception
              (df <- lift read_csv ;; ret (Some (fillna df)))
              (fun e => print (CROSS_MARK ++ u " Error loading sheet: " ++ e) ;;
                        ret None) ;;
  match loaded with
  | None => ret tt
  | Some df =>
      emit (Makedirs (u "contributors")) ;;
      index_data <- for_groups (groupby_Country df) [] ;;
      let index_filename := u "contributors/index.json" in
      emit (JsonDump index_filename (Index index_data)) ;;
      print (NEWLINE ++ ROCKET ++ u " All Done! Index file created at " ++ index_filename) ;;
      let total_countries := Z.of_nat (List.length index_data) in
      let total_items := fold_left Z.add (map entry_count index_data) 0%Z in
      let message :=
        ROCKET ++ u " *HabitFund Data Update Complete*" ++ NEWLINE
          ++ BULLET ++ u " Countries: " ++ format_d total_countries ++ NEWLINE
          ++ BULLET ++ u " Total Contributors: " ++ format_d total_items ++ NEWLINE
          ++ BULLET ++ u " Index File: `" ++ index_filename ++ u "` created successfully." in
      send_slack_message message
  end.

(** The events one call of [send_slack_message] appends to the trace [t],
    for stating what a run has done. *)
Definition skip_line : str :=
  WARNING_SIGN ++ u " SLACK_WEBHOOK_URL not set. Skipping notification.".

Definition outcome_line (o : http_outcome) : str :=
  match o with
  | Response status =>
      if (status =? 200)%Z
      then CHECK_MARK ++ u " Slack notification sent."
      else WARNING_SIGN ++ u " Failed to send Slack notification: " ++ format_d status
  | TransportError text =>
      WARNING_SIGN ++ u " Error sending Slack notification: " ++ text
  end.

Definition notify_events (message : str) (t : trace) : list event :=
  match SLACK_WEBHOOK_URL with
  | Some (c :: url) =>
      [SlackCall message; UrlOpen (c :: url) message;
       Print (outcome_line (urlopen (t ++ [SlackCall message]) (c :: url) message))]
  | _ => [SlackCall message; Print skip_line]
  end.

(** The message of the fallback branch of [get_country_info]. *)
Definition warning_message (name code : str) : str :=
  WARNING_SIGN ++ u " Country lookup failed for '" ++ name
    ++ u "'. Using fallback code: '" ++ code ++ u "'".

End Script.

(** The files and the index a run has written, read off its trace, and the
    calls to the notifier it has made. *)
Fixpoint dumped_records (t : trace) : list (str * list ContributorRecord) :=
  match t with
  | [] => []
  | JsonDump path (Records json_data) :: t' => (path, json_data) :: dumped_records t'
  | _ :: t' => dumped_records t'
  end.

Fixpoint dumped_indexes (t : trace) : list (list IndexEntry) :=
  match t with
  | [] => []
  | JsonDump _ (Index index_data) :: t' => index_data :: dumped_indexes t'
  | _ :: t' => dumped_indexes t'
  end.

Fixpoint slack_calls (t : trace) : list str :=
  match t with
  | [] => []
  | SlackCall message :: t' => message :: slack_calls t'
  | _ :: t' => slack_calls t'
  end.

Fixpoint lookups (t : trace) : list str :=
  match t with
  | [] => []
  | CountriesLookup name :: t' => name :: lookups t'
  | _ :: t' => lookups t'
  end.

Fixpoint transport_attempts (t : trace) : list (str * str) :=
  match t with
  | [] => []
  | UrlOpen url text :: t' => (url, text) :: transport_attempts t'
  | _ :: t' => transport_attempts t'
  end.

(** ** Vocabulary of the specification *)

(** [x] occurs in [s] right after the prefix [p]. *)
Definition occurs_after (x s p : str) : Prop := exists rest, s = p ++ x ++ rest.

(** [x] is a substring of [s]. *)
Definition substring (x s : str) : Prop := exists p, occurs_after x s p.

(** [p] is the part of [s] before the first occurrence of [sep]: all of [s]
    when [sep] does not occur. *)
Inductive before_first (sep s : str) : str -> Prop :=
| before_first_none :
    ~ substring sep s -> before_first sep s s
| before_first_some p :
    occurs_after sep s p ->
    (forall q, occurs_after sep s q -> List.length p <= List.length q) ->
    before_first sep s p.

(** The flag rule: the UN flag for the code ["global"], the flag of the code
    otherwise. *)
Definition flag_url_of (code : str) : str :=
  if str_eqb code (u "global")
  then UN_FLAG_URL
  else u "https://flagcdn.com/w40/" ++ code ++ u ".png".

(** The fallback code of a name. *)
Definition fallback_code (lower : str -> str) (name : str) : str :=
  replace (u " ") (u "_") (lower name).

(** An index entry describes a written file: same path, and as many records
    as its count says. *)
Definition describes (entry : IndexEntry) (file : str * list ContributorRecord) : Prop :=
  entry_path entry = fst file
  /\ entry_count entry = Z.of_nat (List.length (snd file)).

(** An index entry counts the rows of a group. *)
Definition counts_rows (entry : IndexEntry) (group : str * list Row) : Prop :=
  entry_count entry = Z.of_nat (List.length (snd group)).

(** [s] is [p] without its leading and trailing whitespace. *)
Definition all_space (s : str) : Prop := Forall (fun c => isspace c = true) s.

Definition no_edge_space (s : str) : Prop :=
  (forall c rest, s = c :: rest -> isspace c = false)
  /\ (forall c front, s = front ++ [c] -> isspace c = false).

Definition trimmed_of (p s : str) : Prop :=
  exists l r, p = l ++ s ++ r /\ all_space l /\ all_space r /\ no_edge_space s.

(** The decimal digit [d] as a character. *)
Definition digit_char (d : Z) : char := (48 + Z.to_N d)%N.

(** [n] written with exactly three decimal digits. *)
Definition three_digits (n : Z) : str :=
  [digit_char (n / 100); digit_char (n / 10 mod 10); digit_char (n mod 10)].

(** ** Reading strings back *)

(** An ASCII Python string as a Standard Library string. *)
Definition to_string (s : str) : string := string_of_list_ascii (map ascii_of_N s).

(** The number a string of decimal digits denotes; [None] for the empty
    string and for a string with any other character. *)
Definition decimal_value (s : str) : option N :=
  option_map N.of_uint (NilZero.uint_of_string (to_string s)).

Definition is_digit (c : char) : bool := ((48 <=? c) && (c <=? 57))%N.

(** How often the character [c] occurs in [s]. *)
Definition count_char (c : char) (s : str) : nat := count_occ N.eq_dec s c.

(** ** What a run resolves and reports *)

Section Views.

Variable unicode_lower : str -> str.
Variable countries_lookup : str -> res pycountry.country.

(** The name is no key of the exception table, so the lookup is made. *)
Definition needs_lookup (name : str) : bool :=
  match dict_get exceptions name with
  | Some _ => false
  | None => true
  end.

(** The name takes the fallback branch. *)
Definition falls_back (name : str) : bool :=
  match dict_get exceptions name, countries_lookup name with
  | None, Raised _ => true
  | _, _ => false
  end.

(** The code and the full name [get_country_info] returns for a name. *)
Definition resolved_code (name : str) : str :=
  match dict_get exceptions name with
  | Some (code, _) => code
  | None =>
      match countries_lookup name with
      | Ok c => lower unicode_lower (pycountry.alpha_2 c)
      | Raised _ => fallback_code (lower unicode_lower) name
      end
  end.

Definition resolved_name (name : str) : str :=
  match dict_get exceptions name with
  | Some (_, full_name) => full_name
  | None =>
      match countries_lookup name with
      | Ok c => pycountry.name c
      | Raised _ => name
      end
  end.

(** The warning a name that falls back is reported with. *)
Definition warning_for (name : str) : str :=
  warning_message name (fallback_code (lower unicode_lower) name).

(** The path of the file of a group. *)
Definition path_for (name : str) : str :=
  u "contributors/" ++ resolved_code name ++ u ".json".

End Views.

(** The index entry and the file a run produces for a group. *)
Definition index_entry_for (unicode_lower : str -> str)
    (countries_lookup : str -> res pycountry.country)
    (group : str * list Row) : IndexEntry :=
  let code := resolved_code unicode_lower countries_lookup (fst group) in
  {| entry_country := resolved_name countries_lookup (fst group);
     entry_code := code;
     entry_flag := flag_url_of code;
     entry_path := path_for unicode_lower countries_lookup (fst group);
     entry_count := Z.of_nat (List.length (snd group)) |}.

Definition file_for (unicode_lower unicode_upper : str -> str)
    (countries_lookup : str -> res pycountry.country)
    (group : str * list Row) : str * list ContributorRecord :=
  (path_for unicode_lower countries_lookup (fst group),
   build_json_data unicode_upper
     (resolved_code unicode_lower countries_lookup (fst group)) (snd group)).

(** The summary posted at the end of a run. *)
Definition summary_message (total_countries total_items : Z) : str :=
  ROCKET ++ u " *HabitFund Data Update Complete*" ++ NEWLINE
    ++ BULLET ++ u " Countries: " ++ format_d total_countries ++ NEWLINE
    ++ BULLET ++ u " Total Contributors: " ++ format_d total_items ++ NEWLINE
    ++ BULLET ++ u " Index File: `" ++ u "contributors/index.json"
    ++ u "` created successfully.".

(** Strict order of Python strings. *)
Definition str_lt (a b : str) : Prop := str_leb a b = true /\ a <> b.

(** The distinct values of the Country column. *)
Definition countries_of (df : list Row) : list str :=
  map fst (groupby_Country df).

(** ** Module level: the sheet URL *)

(** [s.encode('utf-8')] with strict errors, one character at a time: a
    surrogate has no encoding, nor has a number above the last code point. *)
Definition utf8_char (c : char) : option (list N) :=
  (if c <? 128 then Some [c]
   else if c <? 2048 then Some [192 + c / 64; 128 + c mod 64]
   else if c <? 65536 then
     if (55296 <=? c) && (c <=? 57343) then None
     else Some [224 + c / 4096; 128 + (c / 64) mod 64; 128 + c mod 64]
   else if c <? 1114112 then
     Some [240 + c / 262144; 128 + (c / 4096) mod 64;
           128 + (c / 64) mod 64; 128 + c mod 64]
   else None)%N.

Fixpoint utf8_encode (s : str) : option (list N) :=
  match s with
  | [] => Some []
  | c :: s' =>
      match utf8_char c, utf8_encode s' with
      | Some bs, Some rest => Some (bs ++ rest)
      | _, _ => None
      end
  end.

(** The bytes [urllib.parse.quote] leaves as they are: letters, digits,
    ["_.-~"] and the default safe character ["/"]. *)
Definition quote_safe (b : N) : bool :=
  ((65 <=? b) && (b <=? 90) || (97 <=? b) && (b <=? 122)
   || (48 <=? b) && (b <=? 57)
   || (b =? 95) || (b =? 46) || (b =? 45) || (b =? 126) || (b =? 47))%N.

Definition hex_digit (n : N) : char :=
  nth (N.to_nat n) (u "0123456789ABCDEF") 48%N.

Definition quote_byte (b : N) : str :=
  if quote_safe b then [b]
  else [37%N; hex_digit (b / 16); hex_digit (b mod 16)].


Section ModuleLevel.

(** The text of the [UnicodeEncodeError] raised for a string. *)
Variable encode_error_text : str -> str.

(** [urllib.parse.quote(string)] *)
Definition quote (string : str) : res str :=
  if negb (truthy string) then Ok string
  else match utf8_encode string with
       | Some bs => Ok (flat_map quote_byte bs)
       | None => Raised (Exception (encode_error_text string))
       end.

(** The statements of the module about [GOOGLE_SHEET_ID], up to the
    definition of [SHEET_URL], which is the value returned; [sys.exit(1)]
    raises [SystemExit]. *)
Definition module_SHEET_URL (env_GOOGLE_SHEET_ID : option str) : M str :=
  let SHEET_ID :=
    match env_GOOGLE_SHEET_ID with
    | Some s => if truthy s then Some (strip s) else Some s
    | None => None
    end in
  match SHEET_ID with
  | Some (c :: id) =>
      encoded_id <- lift (quote (c :: id)) ;;
      ret (u "https://docs.google.com/spreadsheets/d/" ++ encoded_id
             ++ u "/export?format=csv")
  | _ =>
      print (CROSS_MARK
               ++ u " GOOGLE_SHEET_ID environment variable is not set. Aborting.") ;;
      lift (Raised (BaseException (u "1")))
  end.

End ModuleLevel.

(** ** The script with the failures of its host

    The definitions so far describe a run whose console accepts every line,
    whose webhook URL [urllib.request.Request] accepts, and whose cells are
    text.  [Fallible] adds what the host can refuse: [print] raises the
    [UnicodeEncodeError] of [sys.stdout] for a line it cannot encode,
    [Request] raises [ValueError] for a URL it cannot parse, and a cell of a
    column that pandas read as numbers is a number. *)

Module Fallible.

(** A cell after [df.fillna("")]: text, or a value of a numeric or boolean
    column.  Of a float only its truth value and its [str()] are kept. *)
Inductive cell :=
| CStr (s : str)
| CInt (n : Z)
| CBool (b : bool)
| CFloat (nonzero : bool) (text : str).

(** [bool(c)] *)
Definition truthy_cell (c : cell) : bool :=
  match c with
  | CStr s => truthy s
  | CInt n => negb (n =? 0)%Z
  | CBool b => b
  | CFloat nonzero _ => nonzero
  end.

(** [str(c)] *)
Definition str_of_cell (c : cell) : str :=
  match c with
  | CStr s => s
  | CInt n => format_d n
  | CBool true => u "True"
  | CBool false => u "False"
  | CFloat _ text => text
  end.

Record Row := {
  Organization_Name : cell;
  Category : cell;
  Search_Tags : cell;
  Official_URL : cell;
  Description : cell
}.

Record ContributorRecord := {
  item_id : str;
  item_name : cell;
  item_category : str;
  item_country : str;
  item_tags : list str;
  item_url : cell;
  item_desc : cell
}.

Definition clean_category (val : cell) : str :=
  if negb (truthy_cell val) then u ""
  else strip (hd [] (split (u " - ") (str_of_cell val))).

Section Host.

Variable unicode_lower unicode_upper : str -> str.
Variable countries_lookup : str -> res pycountry.country.
Variable env_SLACK_WEBHOOK_URL : option str.
(** [urllib.request.Request(url, ...)]: the text of the [ValueError] for a
    URL it refuses. *)
Variable request_error : str -> option str.
Variable urlopen : trace -> str -> str -> http_outcome.
(** [sys.stdout]: the text of the [UnicodeEncodeError] for a line it cannot
    encode. *)
Variable console : str -> option str.

Definition print (line : str) : M unit :=
  fun t => match console line with
           | None => (Ok tt, t ++ [Print line])
           | Some text => (Raised (Exception text), t)
           end.

Definition send_slack_message (message : str) : M unit :=
  emit (SlackCall message) ;;
  match SLACK_WEBHOOK_URL env_SLACK_WEBHOOK_URL with
  | None => print skip_line
  | Some url =>
      if negb (truthy url)
      then print skip_line
      else
        try_except_Exception
          (status <- (fun t =>
                        match request_error url with
                        | Some text => (Raised (Exception text), t)
                        | None =>
                            match urlopen t url message with
                            | Response status =>
                                (Ok status, t ++ [UrlOpen url message])
                            | TransportError text =>
                                (Raised (Exception text), t ++ [UrlOpen url message])
                            end
                        end) ;;
           if (status =? 200)%Z
           then print (CHECK_MARK ++ u " Slack notification sent.")
           else print (WARNING_SIGN ++ u " Failed to send Slack notification: "
                         ++ format_d status))
          (fun e => print (WARNING_SIGN ++ u " Error sending Slack notification: " ++ e))
  end.

Definition get_country_info (name : str) : M (str * str * str) :=
  code_full_name <-
    match dict_get exceptions name with
    | Some (code, full_name) => ret (code, full_name)
    | None =>
        try_except
          (emit (CountriesLookup name) ;;
           lookup <- lift (countries_lookup name) ;;
           let code := lower unicode_lower (pycountry.alpha_2 lookup) in
           let full_name := pycountry.name lookup in
           ret (code, full_name))
          (let code := replace (u " ") (u "_") (lower unicode_lower name) in
           let full_name := name in
           let warning_msg :=
             WARNING_SIGN ++ u " Country lookup failed for '" ++ name
               ++ u "'. Using fallback code: '" ++ code ++ u "'" in
           print warning_msg ;;
           send_slack_message warning_msg ;;
           ret (code, full_name))
    end ;;
  let '(code, full_name) := code_full_name in
  let flag_url :=
    if str_eqb code (u "global")
    then UN_FLAG_URL
    else u "https://flagcdn.com/w40/" ++ code ++ u ".png" in
  ret (code, full_name, flag_url).

(** The [item] of row [i] of a group in [main]. *)
Definition build_item (file_code : str) (i : Z) (row : Row) : ContributorRecord :=
  {| item_id := index_to_id file_code i;
     item_name := Organization_Name row;
     item_category := clean_category (Category row);
     item_country := upper unicode_upper file_code;
     item_tags :=
       if truthy_cell (Search_Tags row)
       then map strip (split (u ",") (str_of_cell (Search_Tags row)))
       else [];
     item_url := Official_URL row;
     item_desc := Description row |}.

End Host.

(** A row with the given Search Tags cell. *)
Definition row_with_tags (tags : cell) : Row :=
  {| Organization_Name := CStr (u "Habit Lab");
     Category := CStr (u "tech - software");
     Search_Tags := tags;
     Official_URL := CStr (u "https://example.org");
     Description := CStr (u "") |}.



(** A console and a [Request] that accept everything. *)
Definition accepts_all (s : str) : option str := None.


End Fallible.

(** ** A sample environment

    A lookup that knows two names, a webhook that answers by URL, and a case
    mapping for Latin-1 letters: enough to run the script on examples. *)

Definition sample_lookup (name : str) : res pycountry.country :=
  if str_eqb name (u "USA")
  then Ok {| pycountry.alpha_2 := u "US"; pycountry.name := u "United States" |}
  else if str_eqb name (u "Russia")
  then Ok {| pycountry.alpha_2 := u "RU"; pycountry.name := u "Russian Federation" |}
  else Raised (Exception (u "Could not find a record for " ++ name)).

Definition sample_urlopen (t : trace) (url text : str) : http_outcome :=
  if str_eqb url (u "https://hooks.example/ok") then Response 200
  else if str_eqb url (u "https://hooks.example/busy") then Response 204
  else TransportError (u "<urlopen error timed out>").

Definition sample_lower (s : str) : str :=
  map (fun c => if ((192 <=? c) && (c <=? 222) && negb (c =? 215))%N
                then (c + 32)%N else ascii_lower_char c) s.

Definition sample_upper (s : str) : str :=
  map (fun c => if ((224 <=? c) && (c <=? 254) && negb (c =? 247))%N
                then (c - 32)%N else ascii_upper_char c) s.

Definition sample_row (country tags : string) : RawRow :=
  {| raw_Country := Some (u country);
     raw_Organization_Name := Some (u "Habit Lab");
     raw_Category := Some (u "tech - software");
     raw_Search_Tags := match tags with EmptyString => None | _ => Some (u tags) end;
     raw_Official_URL := Some (u "https://example.org");
     raw_Description := None |}.

(** ** Basic facts *)

Lemma str_eqb_eq (a b : str) : str_eqb a b = true <-> a = b.
Proof.
  unfold str_eqb. destruct (list_eq_dec N.eq_dec a b); split; congruence.
Qed.

Lemma str_eqb_neq (a b : str) : str_eqb a b = false <-> a <> b.
Proof.
  unfold str_eqb. destruct (list_eq_dec N.eq_dec a b); split; congruence.
Qed.

Example clean_category_ex1 : clean_category (u "tech - software") = u "tech".
Proof. reflexivity. Qed.
Example index_to_id_ex1 : index_to_id (u "kr") 9 = u "kr_010".
Proof. reflexivity. Qed.
Example index_to_id_ex2 : index_to_id (u "kr") 999 = u "kr_1000".
Proof. reflexivity. Qed.
Example tags_ex1 : tags_of (u "a, b,c") = [u "a"; u "b"; u "c"].
Proof. reflexivity. Qed.
Example tags_ex2 : tags_of (u "a,,b") = [u "a"; u ""; u "b"].
Proof. reflexivity. Qed.
(** A field of whitespace only is not empty: it has one piece, stripped. *)
Example tags_ex3 : tags_of (u "  ") = [u ""].
Proof. reflexivity. Qed.
Example split_ex :
  split (u " - ") (u "a - b -  - c - ") = [u "a"; u "b"; u ""; u "c"; u ""].
Proof. reflexivity. Qed.
Example fmt_ex : (format_d 0, format_d (-40), format_0d 3 (-4), format_d 12345)
   = (u "0", u "-40", u "-04", u "12345").
Proof. reflexivity. Qed.


(** ** Splitting *)

Lemma startswith_spec (p s : str) :
  startswith p s = true <-> exists rest, s = p ++ rest.
Proof.
  revert s. induction p as [|a p IH]; intros s; simpl.
  - split; [intros _; now exists s | reflexivity].
  - destruct s as [|b s].
    + split; [discriminate | intros [rest H]; discriminate H].
    + rewrite andb_true_iff, N.eqb_eq, IH. split.
      * intros [-> [rest ->]]. now exists rest.
      * intros [rest H]. injection H as -> ->. split; [reflexivity | now exists rest].
Qed.

Lemma occurs_after_nil (x s : str) :
  occurs_after x s [] <-> startswith x s = true.
Proof. unfold occurs_after. simpl. now rewrite startswith_spec. Qed.

Lemma occurs_after_cons (x s p : str) (c : char) :
  occurs_after x (c :: s) (c :: p) <-> occurs_after x s p.
Proof.
  unfold occurs_after; split; intros [rest H]; exists rest; simpl in *; congruence.
Qed.

Lemma occurs_after_head (x s p : str) (c d : char) :
  occurs_after x (c :: s) (d :: p) -> d = c.
Proof. intros [rest H]. simpl in H. congruence. Qed.

(** The first piece of a split is what precedes the first separator. *)
Lemma split_go_first (sep : str) :
  sep <> [] ->
  forall s cur, exists p,
    before_first sep s p /\ hd [] (split_go sep 0 cur s) = cur ++ p.
Proof.
  intros Hsep. induction s as [|c s IH]; intros cur.
  - exists []. split; [|simpl; now rewrite app_nil_r].
    apply before_first_none. intros [p [rest H]].
    destruct p; destruct sep; simpl in H; congruence.
  - simpl. destruct (startswith sep (c :: s)) eqn:Hst.
    + exists []. split; [|simpl; now rewrite app_nil_r].
      apply before_first_some.
      * now apply occurs_after_nil.
      * intros q _. simpl. lia.
    + destruct (IH (cur ++ [c])) as [p [Hp Hhd]].
      exists (c :: p). split; [|now rewrite Hhd, <- app_assoc].
      destruct Hp as [Hnone | p Hocc Hmin].
      * apply before_first_none. intros [q Hq]. destruct q as [|d q].
        -- apply occurs_after_nil in Hq. congruence.
        -- pose proof (occurs_after_head Hq) as ->.
           apply occurs_after_cons in Hq. apply Hnone. now exists q.
      * apply before_first_some.
        -- now apply occurs_after_cons.
        -- intros q Hq. destruct q as [|d q].
           ++ apply occurs_after_nil in Hq. congruence.
           ++ pose proof (occurs_after_head Hq) as ->.
              apply occurs_after_cons in Hq. simpl. apply Hmin in Hq. lia.
Qed.

Lemma before_first_unique (sep s p q : str) :
  before_first sep s p -> before_first sep s q -> p = q.
Proof.
  intros Hp' Hq'.
  inversion Hp' as [Hn | p0 Hp Hpm]; inversion Hq' as [Hn' | q0 Hq Hqm]; subst.
  - reflexivity.
  - exfalso. apply Hn. now exists q.
  - exfalso. apply Hn'. now exists p.
  - pose proof (Hpm _ Hq). pose proof (Hqm _ Hp).
    destruct Hp as [r1 H1], Hq as [r2 H2].
    assert (Hlen : List.length p = List.length q) by lia.
    rewrite H1 in H2. clear - H2 Hlen.
    revert q H2 Hlen. induction p as [|a p IH]; intros [|b q] H2 Hlen;
      simpl in *; try discriminate; [reflexivity|].
    injection H2 as -> H2. f_equal. apply IH; [assumption | lia].
Qed.

(** Splitting on a single character. *)
Lemma split_go_char_app (c : char) (a b cur : str) :
  split_go [c] 0 cur (a ++ c :: b) = split_go [c] 0 cur a ++ split_go [c] 0 [] b.
Proof.
  revert cur. induction a as [|x a IH]; intros cur; simpl.
  - now rewrite N.eqb_refl.
  - destruct (c =? x)%N; simpl; now rewrite IH.
Qed.

Lemma split_char_app (c : char) (a b : str) :
  split [c] (a ++ c :: b) = split [c] a ++ split [c] b.
Proof. apply split_go_char_app. Qed.

Lemma split_go_nonempty (sep : str) (s : str) :
  forall skip cur, split_go sep skip cur s <> [].
Proof.
  induction s as [|c s IH]; intros skip cur; simpl; [discriminate|].
  destruct skip; [|apply IH].
  destruct (startswith sep (c :: s)); [discriminate | apply IH].
Qed.

Lemma join_cons (sep p : str) (rest : list str) :
  rest <> [] -> join sep (p :: rest) = p ++ sep ++ join sep rest.
Proof. destruct rest; [congruence | reflexivity]. Qed.

Lemma split_go_char_join (c : char) (s : str) :
  forall cur, join [c] (split_go [c] 0 cur s) = cur ++ s.
Proof.
  induction s as [|x s IH]; intros cur; simpl.
  - now rewrite app_nil_r.
  - destruct (c =? x)%N eqn:E; cbn [andb].
    + apply N.eqb_eq in E as <-.
      rewrite join_cons by apply split_go_nonempty.
      now rewrite IH.
    + rewrite IH. now rewrite <- app_assoc.
Qed.

Lemma split_go_char_pieces (c : char) (s : str) :
  forall cur, ~ In c cur -> Forall (fun p => ~ In c p) (split_go [c] 0 cur s).
Proof.
  induction s as [|x s IH]; intros cur Hcur; simpl.
  - now constructor.
  - destruct (c =? x)%N eqn:E; cbn [andb].
    + constructor; [assumption | apply IH; intros []].
    + apply IH. rewrite in_app_iff. intros [H | [H | []]]; [now apply Hcur|].
      apply N.eqb_neq in E. congruence.
Qed.

(** ** Stripping and replacing *)

Lemma lstrip_spec (s : str) :
  exists l, s = l ++ lstrip s /\ all_space l
            /\ (forall c rest, lstrip s = c :: rest -> isspace c = false).
Proof.
  induction s as [|c s (l & Hs & Hl & Hhd)]; simpl.
  - exists []. repeat split; [constructor | discriminate].
  - destruct (isspace c) eqn:E.
    + exists (c :: l). repeat split; [simpl; congruence | now constructor | exact Hhd].
    + exists []. repeat split; [constructor | congruence].
Qed.

Lemma strip_trimmed (p : str) : trimmed_of p (strip p).
Proof.
  unfold strip, rstrip.
  destruct (lstrip_spec p) as (l & Hp & Hl & Hhd).
  destruct (lstrip_spec (rev (lstrip p))) as (r & Hr & Hrs & Hlast).
  set (core := rev (lstrip (rev (lstrip p)))) in *.
  assert (Hs1 : lstrip p = core ++ rev r).
  { rewrite <- (rev_involutive (lstrip p)), Hr, rev_app_distr. reflexivity. }
  exists l, (rev r). repeat split.
  - now rewrite <- Hs1.
  - exact Hl.
  - apply Forall_rev, Hrs.
  - intros c rest Hc. rewrite Hc in Hs1. exact (Hhd c _ Hs1).
  - intros c front Hc. apply (Hlast c (rev front)).
    rewrite <- (rev_involutive (lstrip (rev (lstrip p)))). fold core.
    rewrite Hc, rev_app_distr. reflexivity.
Qed.

Lemma replace_go_char (a b : char) (s : str) :
  replace_go [a] [b] 0 s = map (fun c => if (c =? a)%N then b else c) s.
Proof.
  induction s as [|c s IH]; [reflexivity|].
  cbn [replace_go startswith List.length Nat.sub map]. rewrite N.eqb_sym.
  destruct (c =? a)%N; cbn [andb app]; now rewrite IH.
Qed.

Lemma replace_space_underscore (s : str) :
  replace (u " ") (u "_") s = map (fun c => if (c =? 32)%N then 95%N else c) s.
Proof. exact (replace_go_char 32%N 95%N s). Qed.

(** ** The record builder *)

(** C7: on every string, [clean_category] returns the part before the first
    [" - "] separator (the whole string when there is none), stripped of
    surrounding whitespace; ["tech - software"] gives ["tech"] and the empty
    string gives the empty string. *)
Theorem clean_category_before_first_separator :
  (forall val : str,
      exists p,
        before_first (u " - ") val p
        /\ clean_category val = strip p
        /\ trimmed_of p (clean_category val))
  /\ clean_category (u "tech - software") = u "tech"
  /\ clean_category (u "") = u "".
Proof.
  split; [|split; reflexivity].
  intros val.
  destruct (@split_go_first (u " - ") ltac:(discriminate) val []) as [p [Hp Hhd]].
  assert (Heq : clean_category val = strip p).
  { unfold clean_category, split.
    destruct val as [|c val]; simpl negb; cbv iota.
    - inversion Hp as [Hn | q Hq Hm]; [reflexivity|].
      destruct Hq as [rest Hrest]. destruct p; discriminate Hrest.
    - now rewrite Hhd. }
  exists p. split; [assumption|]. split; [assumption|].
  rewrite Heq. apply strip_trimmed.
Qed.

Lemma truthy_app_cons (a b : str) (c : char) : truthy (a ++ c :: b) = true.
Proof. now destruct a. Qed.

Lemma split_comma_app (a b : str) :
  split (u ",") (a ++ u "," ++ b) = split (u ",") a ++ split (u ",") b.
Proof. exact (split_char_app 44%N a b). Qed.

Lemma tags_of_comma (a b : str) :
  tags_of (a ++ u "," ++ b) = map strip (split (u ",") (a ++ u "," ++ b)).
Proof.
  unfold tags_of. change (u "," ++ b) with (44%N :: b).
  now rewrite truthy_app_cons.
Qed.

(** C10: only the empty Search Tags field gives an empty tag list; a field
    with two commas in a row, a leading comma or a trailing comma gives a
    list with the empty string at the matching position, as in ["a,,b"] and
    ["a,"]. *)
Theorem tags_keep_empty_elements :
  (forall unicode_upper file_code i row,
      item_tags (build_item unicode_upper file_code i row)
      = tags_of (Search_Tags row))
  /\ (forall field, tags_of field = [] <-> field = u "")
  /\ (forall a b,
         tags_of (a ++ u ",," ++ b)
         = map strip (split (u ",") a) ++ [u ""] ++ map strip (split (u ",") b))
  /\ (forall b, tags_of (u "," ++ b) = u "" :: map strip (split (u ",") b))
  /\ (forall a, tags_of (a ++ u ",") = map strip (split (u ",") a) ++ [u ""])
  /\ tags_of (u "a,,b") = [u "a"; u ""; u "b"]
  /\ tags_of (u "a,") = [u "a"; u ""].
Proof.
  split; [reflexivity|]. split; [|split; [|split; [|split; [|split; reflexivity]]]].
  - intros field. unfold tags_of. destruct field as [|c field]; simpl truthy.
    + now split.
    + split; [|discriminate]. intros H. apply map_eq_nil in H.
      now apply split_go_nonempty in H.
  - intros a b.
    transitivity (tags_of (a ++ u "," ++ ([] ++ u "," ++ b))); [reflexivity|].
    now rewrite tags_of_comma, !split_comma_app, !map_app.
  - intros b.
    transitivity (tags_of ([] ++ u "," ++ b)); [reflexivity|].
    now rewrite tags_of_comma, split_comma_app.
  - intros a.
    transitivity (tags_of (a ++ u "," ++ [])); [reflexivity|].
    now rewrite tags_of_comma, split_comma_app, map_app.
Qed.

(** ** Record identifiers *)

Lemma format_0d_three_digits (n : Z) :
  (1 <= n <= 999)%Z -> format_0d 3 n = three_digits n.
Proof.
  intros Hn.
  assert (Hall : forallb (fun k => str_eqb (format_0d 3 (Z.of_nat k))
                                       (three_digits (Z.of_nat k)))
                         (seq 1 999) = true) by (vm_compute; reflexivity).
  rewrite forallb_forall in Hall.
  specialize (Hall (Z.to_nat n)). rewrite Z2Nat.id in Hall by lia.
  apply str_eqb_eq, Hall, in_seq. lia.
Qed.

Lemma digit_char_inj (a b : Z) :
  (0 <= a)%Z -> (0 <= b)%Z -> digit_char a = digit_char b -> a = b.
Proof.
  unfold digit_char. intros Ha Hb H.
  apply N.add_cancel_l in H. now apply Z2N.inj.
Qed.

Lemma three_digits_inj (n m : Z) :
  (0 <= n)%Z -> (0 <= m)%Z -> three_digits n = three_digits m -> n = m.
Proof.
  intros Hn Hm H. unfold three_digits in H. injection H as H2 H1 H0.
  apply digit_char_inj in H2; [|apply Z.div_pos; lia ..].
  apply digit_char_inj in H1; [|apply Z.mod_pos_bound; lia ..].
  apply digit_char_inj in H0; [|apply Z.mod_pos_bound; lia ..].
  assert (Hd : forall k, (k = 100 * (k / 100) + (10 * (k / 10 mod 10) + k mod 10))%Z).
  { intros k. Z.to_euclidean_division_equations. lia. }
  rewrite (Hd n), (Hd m). congruence.
Qed.

(** C5: for row indices below 999 the id is the code, an underscore and the
    index plus one written with exactly three digits, and two different
    indices of one group give different ids; in group ["kr"] index 0 gives
    ["kr_001"] and index 9 gives ["kr_010"]. *)
Theorem index_to_id_padded_injective :
  forall (file_code : str) (i j : Z),
    (0 <= i < 999)%Z -> (0 <= j < 999)%Z ->
    index_to_id file_code i = file_code ++ u "_" ++ three_digits (i + 1)
    /\ (i <> j -> index_to_id file_code i <> index_to_id file_code j).
Proof.
  intros file_code i j Hi Hj. unfold index_to_id.
  rewrite !format_0d_three_digits by lia. split; [reflexivity|].
  intros Hij H. apply app_inv_head in H. apply app_inv_head in H.
  apply three_digits_inj in H; lia.
Qed.

Lemma index_to_id_padded_injective_witness :
  index_to_id (u "kr") 0 = u "kr_001"
  /\ index_to_id (u "kr") 9 = u "kr_010"
  /\ index_to_id (u "kr") 0 <> index_to_id (u "kr") 9.
Proof.
  destruct (@index_to_id_padded_injective (u "kr") 0 9) as [H0 Hne]; [lia | lia |].
  destruct (@index_to_id_padded_injective (u "kr") 9 0) as [H9 _]; [lia | lia |].
  split; [exact H0 | split; [exact H9 | apply Hne; lia]].
Defined.

(** ** Traces *)

Lemma slack_calls_app (t1 t2 : trace) :
  slack_calls (t1 ++ t2) = slack_calls t1 ++ slack_calls t2.
Proof.
  induction t1 as [|e t1 IH]; [reflexivity|].
  destruct e; simpl; now rewrite IH.
Qed.

Lemma dumped_records_app (t1 t2 : trace) :
  dumped_records (t1 ++ t2) = dumped_records t1 ++ dumped_records t2.
Proof.
  induction t1 as [|e t1 IH]; [reflexivity|].
  destruct e as [| | | | |path []]; simpl; now rewrite IH.
Qed.

Lemma dumped_indexes_app (t1 t2 : trace) :
  dumped_indexes (t1 ++ t2) = dumped_indexes t1 ++ dumped_indexes t2.
Proof.
  induction t1 as [|e t1 IH]; [reflexivity|].
  destruct e as [| | | | |path []]; simpl; now rewrite IH.
Qed.

Lemma transport_attempts_app (t1 t2 : trace) :
  transport_attempts (t1 ++ t2) = transport_attempts t1 ++ transport_attempts t2.
Proof.
  induction t1 as [|e t1 IH]; [reflexivity|].
  destruct e; simpl; now rewrite IH.
Qed.

(** ** The notifier and the resolver *)

Section Resolver.

Variable unicode_lower : str -> str.
Variable countries_lookup : str -> res pycountry.country.
Variable env_SLACK_WEBHOOK_URL : option str.
Variable urlopen : trace -> str -> str -> http_outcome.

Local Abbreviation notify := (send_slack_message env_SLACK_WEBHOOK_URL urlopen).
Local Abbreviation resolve :=
  (get_country_info unicode_lower countries_lookup env_SLACK_WEBHOOK_URL urlopen).
Local Abbreviation webhook := (SLACK_WEBHOOK_URL env_SLACK_WEBHOOK_URL).
Local Abbreviation notified := (notify_events env_SLACK_WEBHOOK_URL urlopen).

Lemma send_slack_message_run (message : str) (t : trace) :
  notify message t = (Ok tt, t ++ notified message t).
Proof.
  unfold notify_events, send_slack_message, try_except_Exception, print, bind, emit.
  destruct (SLACK_WEBHOOK_URL env_SLACK_WEBHOOK_URL) as [[|c url]|]; cbn [negb truthy].
  - now rewrite <- app_assoc.
  - destruct (urlopen (t ++ [SlackCall message]) (c :: url) message) as [status|text];
      cbn [outcome_line]; [destruct (status =? 200)%Z|]; now rewrite <- !app_assoc.
  - now rewrite <- app_assoc.
Qed.

Lemma notify_events_calls (message : str) (t : trace) :
  slack_calls (notified message t) = [message].
Proof. unfold notify_events. now destruct webhook as [[|c url]|]. Qed.

Lemma notify_events_dumps (message : str) (t : trace) :
  dumped_records (notified message t) = []
  /\ dumped_indexes (notified message t) = [].
Proof. unfold notify_events. now destruct webhook as [[|c url]|]. Qed.

Lemma dict_get_None {V} (d : list (str * V)) (k : str) :
  dict_get d k = None <-> ~ In k (map fst d).
Proof.
  induction d as [|[k' v'] d IH]; simpl; [tauto|].
  destruct (str_eqb k k') eqn:E.
  - apply str_eqb_eq in E as ->. split; [discriminate | tauto].
  - apply str_eqb_neq in E. rewrite IH. split; [intros H [H'|H']; congruence | tauto].
Qed.

Lemma In_dict_get {V} (d : list (str * V)) (k : str) (v : V) :
  NoDup (map fst d) -> In (k, v) d -> dict_get d k = Some v.
Proof.
  induction d as [|[k' v'] d IH]; simpl; [tauto|].
  intros Hnd [H | H].
  - injection H as -> ->.
    now replace (str_eqb k k) with true by (symmetry; now apply str_eqb_eq).
  - inversion Hnd as [|? ? Hk' Hnd']; subst.
    destruct (str_eqb k k') eqn:E; [|now apply IH].
    apply str_eqb_eq in E as ->. exfalso. apply Hk'.
    now apply (in_map fst) in H.
Qed.

Lemma exceptions_keys_NoDup : NoDup (map fst exceptions).
Proof.
  repeat constructor; simpl; intuition discriminate.
Qed.

(** What a call of [get_country_info] returns and appends, by the three
    steps of its decision. *)
Lemma get_country_info_run (name : str) (t : trace) :
  resolve name t =
  match dict_get exceptions name with
  | Some (code, full_name) => (Ok (code, full_name, flag_url_of code), t)
  | None =>
      match countries_lookup name with
      | Ok c =>
          let code := lower unicode_lower (pycountry.alpha_2 c) in
          (Ok (code, pycountry.name c, flag_url_of code), t ++ [CountriesLookup name])
      | Raised _ =>
          let code := fallback_code (lower unicode_lower) name in
          let message := warning_message name code in
          let t1 := t ++ [CountriesLookup name; Print message] in
          (Ok (code, name, flag_url_of code), t1 ++ notified message t1)
      end
  end.
Proof.
  unfold get_country_info, bind at 1.
  destruct (dict_get exceptions name) as [[code full_name]|]; [reflexivity|].
  unfold try_except, bind, emit, lift, print, ret.
  destruct (countries_lookup name) as [c|e]; [reflexivity|].
  cbv zeta. fold (fallback_code (lower unicode_lower) name).
  fold (warning_message name (fallback_code (lower unicode_lower) name)).
  unfold emit. cbv beta iota.
  rewrite <- (app_assoc t [CountriesLookup name]). cbn [app].
  now rewrite send_slack_message_run.
Qed.

Lemma flag_url_of_un (code : str) :
  flag_url_of code = UN_FLAG_URL <-> code = u "global" \/ code = u "un".
Proof.
  unfold flag_url_of. destruct (str_eqb code (u "global")) eqn:E.
  - apply str_eqb_eq in E. tauto.
  - apply str_eqb_neq in E. split.
    + intros H. right.
      change UN_FLAG_URL with (u "https://flagcdn.com/w40/" ++ u "un" ++ u ".png") in H.
      apply app_inv_head in H. now apply app_inv_tail in H.
    + intros [H | ->]; [contradiction | reflexivity].
Qed.



(** C1: the resolver decides in three ordered steps.  A name that is a key
    of the exception table gets the table's code and full name, and no
    lookup is made, whatever the lookup would answer; any other name the
    lookup recognises gets the lower-cased alpha-2 code and the lookup's
    name; any other name gets the fallback code and itself as full name. *)
Theorem get_country_info_precedence :
  forall (name : str) (t : trace),
    (forall code full_name,
        In (name, (code, full_name)) exceptions ->
        exists flag_url,
          resolve name t = (Ok (code, full_name, flag_url), t))
    /\ (forall c,
           ~ In name (map fst exceptions) ->
           countries_lookup name = Ok c ->
           exists flag_url,
             resolve name t
             = (Ok (lower unicode_lower (pycountry.alpha_2 c), pycountry.name c, flag_url),
                t ++ [CountriesLookup name]))
    /\ (forall e,
           ~ In name (map fst exceptions) ->
           countries_lookup name = Raised e ->
           exists flag_url t',
             resolve name t
             = (Ok (replace (u " ") (u "_") (lower unicode_lower name), name, flag_url),
                t')).
Proof.
  intros name t. rewrite get_country_info_run. split; [|split].
  - intros code full_name Hin.
    rewrite (@In_dict_get _ _ _ _ exceptions_keys_NoDup Hin). now eexists.
  - intros c Hnot Hc. apply dict_get_None in Hnot. rewrite Hnot, Hc. now eexists.
  - intros e Hnot He. apply dict_get_None in Hnot. rewrite Hnot, He.
    now do 2 eexists.
Qed.

(** C4, as the code has it: the flag URL is the UN flag URL when the code is
    ["global"] and the flagcdn URL of the code otherwise; the two agree for
    the code ["un"], so the UN flag URL is returned exactly for the codes
    ["global"] and ["un"]. *)
Theorem get_country_info_flag_url :
  forall (name : str) (t t' : trace) (code full_name flag_url : str),
    resolve name t = (Ok (code, full_name, flag_url), t') ->
    (code = u "global" -> flag_url = u "https://flagcdn.com/w40/un.png")
    /\ (code <> u "global" ->
        flag_url = u "https://flagcdn.com/w40/" ++ code ++ u ".png")
    /\ (flag_url = u "https://flagcdn.com/w40/un.png"
        <-> code = u "global" \/ code = u "un").
Proof.
  intros name t t' code full_name flag_url Hrun.
  assert (Hflag : flag_url = flag_url_of code).
  { rewrite get_country_info_run in Hrun.
    destruct (dict_get exceptions name) as [[c f]|];
      [|destruct (countries_lookup name)]; cbv zeta in Hrun; congruence. }
  subst flag_url. split; [|split].
  - now intros ->.
  - intros Hne. unfold flag_url_of. apply str_eqb_neq in Hne. now rewrite Hne.
  - apply flag_url_of_un.
Qed.

End Resolver.


(** ** The run *)

Section Run.

Variable unicode_lower unicode_upper : str -> str.
Variable countries_lookup : str -> res pycountry.country.
Variable env_SLACK_WEBHOOK_URL : option str.
Variable urlopen : trace -> str -> str -> http_outcome.

Local Abbreviation notify := (send_slack_message env_SLACK_WEBHOOK_URL urlopen).
Local Abbreviation resolve :=
  (get_country_info unicode_lower countries_lookup env_SLACK_WEBHOOK_URL urlopen).
Local Abbreviation loop :=
  (for_groups unicode_lower unicode_upper countries_lookup env_SLACK_WEBHOOK_URL urlopen).
Local Abbreviation run :=
  (main unicode_lower unicode_upper countries_lookup env_SLACK_WEBHOOK_URL urlopen).

Lemma get_country_info_events (name : str) (t : trace) :
  exists code full_name flag_url evs,
    resolve name t = (Ok (code, full_name, flag_url), t ++ evs)
    /\ dumped_records evs = [] /\ dumped_indexes evs = [].
Proof.
  rewrite get_country_info_run.
  destruct (dict_get exceptions name) as [[code full_name]|];
    [|destruct (countries_lookup name) as [c|e]]; cbv zeta.
  - exists code, full_name, (flag_url_of code), []. now rewrite app_nil_r.
  - do 3 eexists. exists [CountriesLookup name]. now split.
  - do 3 eexists. eexists. rewrite <- app_assoc. split; [reflexivity|].
    rewrite dumped_records_app, dumped_indexes_app.
    now destruct (notify_events_dumps env_SLACK_WEBHOOK_URL urlopen
        (warning_message name (fallback_code (lower unicode_lower) name))
        (t ++ [CountriesLookup name;
               Print (warning_message name (fallback_code (lower unicode_lower) name))]))
      as [-> ->].
Qed.

Lemma enumerate_from_length {A} (l : list A) (i : Z) :
  List.length (enumerate_from i l) = List.length l.
Proof. revert i. induction l as [|x l IH]; intros i; simpl; [|rewrite IH]; reflexivity. Qed.

Lemma append_items_length (file_code : str) (l : list (Z * Row)) :
  forall acc,
    List.length
      (fold_left (fun json_data '(i, row) =>
                    json_data ++ [build_item unicode_upper file_code i row]) l acc)
    = List.length acc + List.length l.
Proof.
  induction l as [|[i row] l IH]; intros acc; simpl; [lia|].
  rewrite IH, length_app. simpl. lia.
Qed.

Lemma build_json_data_length (file_code : str) (group : list Row) :
  List.length (build_json_data unicode_upper file_code group) = List.length group.
Proof.
  unfold build_json_data, enumerate.
  now rewrite append_items_length, enumerate_from_length.
Qed.

Lemma for_groups_run (groups : list (str * list Row)) :
  forall (index_data : list IndexEntry) (t : trace),
    exists new evs,
      loop groups index_data t = (Ok (index_data ++ new), t ++ evs)
      /\ Forall2 describes new (dumped_records evs)
      /\ Forall2 counts_rows new groups
      /\ dumped_indexes evs = [].
Proof.
  induction groups as [|[country_name group] rest IH]; intros index_data t.
  - exists [], []. simpl. unfold ret. rewrite !app_nil_r. repeat split; constructor.
  - destruct (get_country_info_events country_name t)
      as (code & full_name & flag_url & evs1 & Hrun & Hrec & Hidx).
    cbn [for_groups]. unfold bind at 1. rewrite Hrun.
    unfold bind, print, emit. cbv beta iota zeta.
    match goal with
    | |- context [loop rest ?i ?t'] => destruct (IH i t') as (new & evs & Hloop & Hd & Hc & Hi)
    end.
    rewrite Hloop.
    eexists (_ :: new), (evs1 ++ _ :: _ :: evs).
    split; [|split; [|split]].
    + rewrite <- !app_assoc. reflexivity.
    + rewrite dumped_records_app, Hrec. cbn. constructor; [|exact Hd].
      split; reflexivity.
    + constructor; [|exact Hc]. unfold counts_rows. cbn.
      now rewrite build_json_data_length.
    + rewrite dumped_indexes_app, Hidx. exact Hi.
Qed.

(** C6: when the sheet loads, the run completes and writes one index; its
    entries correspond one to one, in order, to the per-country files
    written and to the country groups, and the count of each entry is the
    length of the record list written for its group, which is the number of
    rows of that group. *)
Theorem main_index_counts :
  forall raw : list RawRow,
    exists (index_data : list IndexEntry) (t' : trace),
      run (Ok raw) [] = (Ok tt, t')
      /\ dumped_indexes t' = [index_data]
      /\ Forall2 describes index_data (dumped_records t')
      /\ Forall2 counts_rows index_data (groupby_Country (fillna raw)).
Proof.
  intros raw. unfold main, try_except_Exception, lift, ret.
  unfold bind at 1 2. cbv beta iota.
  unfold bind at 1. unfold emit at 1. cbv beta iota.
  unfold bind at 1.
  destruct (for_groups_run (groupby_Country (fillna raw)) [] ([] ++ [Makedirs (u "contributors")]))
    as (index_data & evs & Hloop & Hd & Hc & Hi).
  rewrite Hloop. cbn [app]. cbv zeta.
  unfold bind, print, emit. cbv beta iota.
  rewrite send_slack_message_run.
  exists index_data. eexists. split; [reflexivity|].
  match goal with
  | |- context [notify_events ?e ?u ?m ?t] =>
      destruct (notify_events_dumps e u m t) as [Hnr Hni]
  end.
  repeat rewrite ?dumped_indexes_app, ?dumped_records_app.
  rewrite Hnr, Hni. cbn [dumped_indexes dumped_records app].
  rewrite Hi, !app_nil_r. now repeat split.
Qed.

End Run.

(** ** The theorems at concrete inputs *)

Lemma get_country_info_precedence_witness :
  (exists flag_url,
      get_country_info sample_lower sample_lookup None sample_urlopen (u "Russia") []
      = (Ok (u "ru", u "Russia", flag_url), []))
  /\ (exists flag_url,
         get_country_info sample_lower sample_lookup None sample_urlopen (u "USA") []
         = (Ok (u "us", u "United States", flag_url), [CountriesLookup (u "USA")]))
  /\ (exists flag_url t',
         get_country_info sample_lower sample_lookup None sample_urlopen
                          (u "south korea") []
         = (Ok (u "south_korea", u "south korea", flag_url), t')).
Proof.
  split; [|split].
  - apply (proj1 (get_country_info_precedence sample_lower sample_lookup None
                    sample_urlopen (u "Russia") [])).
    simpl. tauto.
  - apply (proj1 (proj2 (get_country_info_precedence sample_lower sample_lookup None
                           sample_urlopen (u "USA") []))
             {| pycountry.alpha_2 := u "US"; pycountry.name := u "United States" |}).
    + simpl. intuition discriminate.
    + reflexivity.
  - apply (proj2 (proj2 (get_country_info_precedence sample_lower sample_lookup None
                           sample_urlopen (u "south korea") []))
             (Exception (u "Could not find a record for south korea"))).
    + simpl. intuition discriminate.
    + reflexivity.
Defined.

Lemma get_country_info_flag_url_witness :
  (u "global" = u "global" -> UN_FLAG_URL = u "https://flagcdn.com/w40/un.png")
  /\ (u "global" <> u "global" ->
      UN_FLAG_URL = u "https://flagcdn.com/w40/" ++ u "global" ++ u ".png")
  /\ (UN_FLAG_URL = u "https://flagcdn.com/w40/un.png"
      <-> u "global" = u "global" \/ u "global" = u "un").
Proof.
  apply (@get_country_info_flag_url sample_lower sample_lookup None sample_urlopen
           (u "Global") [] [] (u "global") (u "Global") UN_FLAG_URL).
  reflexivity.
Defined.

(** The code ["un"] gets the UN flag URL without being ["global"]: the
    fallback code of the name ["un"] builds the same URL. *)
Lemma get_country_info_un_flag_not_global :
  exists t',
    get_country_info sample_lower sample_lookup None sample_urlopen (u "un") []
    = (Ok (u "un", u "un", u "https://flagcdn.com/w40/un.png"), t')
    /\ ~ (u "https://flagcdn.com/w40/un.png" = u "https://flagcdn.com/w40/un.png"
          <-> u "un" = u "global").
Proof.
  eexists. split; [reflexivity|].
  intros [H _]. discriminate (H eq_refl).
Qed.

(** A name with mixed case, extra whitespace and a letter outside ASCII goes
    through the fallback. *)
Example get_country_info_mixed_input :
  fst (get_country_info sample_lower sample_lookup None sample_urlopen
         ([32; 67; 212; 84; 69; 32; 32; 120]%N) [])
  = Ok ([95; 99; 244; 116; 101; 95; 95; 120]%N,
        [32; 67; 212; 84; 69; 32; 32; 120]%N,
        u "https://flagcdn.com/w40/" ++ [95; 99; 244; 116; 101; 95; 95; 120]%N
          ++ u ".png").
Proof. reflexivity. Qed.

(** Two rows, one for a table name and one for an unknown name: two files of
    one record each, an index of two entries, one warning. *)
Example main_two_rows :
  let t := snd (main sample_lower sample_upper sample_lookup None sample_urlopen
                  (Ok [sample_row "South Korea" "a, b,c"; sample_row "Wonderland" ""])
                  []) in
  map fst (dumped_records t)
  = [u "contributors/kr.json"; u "contributors/wonderland.json"]
  /\ map (fun f => map item_id (snd f)) (dumped_records t)
     = [[u "kr_001"]; [u "wonderland_001"]]
  /\ map (map entry_count) (dumped_indexes t) = [[1%Z; 1%Z]]
  /\ List.length (slack_calls t) = 2
  /\ lookups t = [u "Wonderland"].
Proof. vm_compute. repeat split. Qed.

(** * Further properties of the script *)

(** ** Stripping *)

Lemma lstrip_all_space_app (l s : str) : all_space l -> lstrip (l ++ s) = lstrip s.
Proof. induction 1 as [|c l Hc _ IH]; simpl; [reflexivity | now rewrite Hc]. Qed.

Lemma lstrip_all_space (l : str) : all_space l -> lstrip l = [].
Proof. intros H. rewrite <- (app_nil_r l). now rewrite lstrip_all_space_app. Qed.

Lemma lstrip_no_leading (s : str) :
  (forall c rest, s = c :: rest -> isspace c = false) -> lstrip s = s.
Proof.
  destruct s as [|c s]; [reflexivity|]. intros H. simpl.
  now rewrite (H c s eq_refl).
Qed.

(** Stripping is determined by its description. *)
Lemma strip_of_trimmed (p s : str) : trimmed_of p s -> strip p = s.
Proof.
  intros (l & r & -> & Hl & Hr & Hhd & Hlast). unfold strip, rstrip.
  rewrite lstrip_all_space_app by assumption.
  destruct s as [|c s].
  - cbn [app]. now rewrite (lstrip_all_space Hr).
  - rewrite (lstrip_no_leading (s:=(c :: s) ++ r))
      by (intros c' rest [= <- _]; now apply (Hhd c s)).
    rewrite rev_app_distr, lstrip_all_space_app by now apply Forall_rev.
    rewrite lstrip_no_leading; [apply rev_involutive|].
    intros c' rest Hrev. apply (Hlast c' (rev rest)).
    rewrite <- (rev_involutive (c :: s)), Hrev. reflexivity.
Qed.

Lemma strip_idempotent (s : str) : strip (strip s) = strip s.
Proof.
  apply strip_of_trimmed. destruct (strip_trimmed s) as (l & r & _ & _ & _ & Hedge).
  exists [], []. rewrite app_nil_r. repeat split; try constructor; apply Hedge.
Qed.

Lemma strip_substring (x p : str) : substring x (strip p) -> substring x p.
Proof.
  destruct (strip_trimmed p) as (l & r & Hp & _).
  intros (a & b & Hx). exists (l ++ a), (b ++ r).
  rewrite Hp, Hx. now rewrite <- !app_assoc.
Qed.

Lemma strip_In (c : char) (p : str) : In c (strip p) -> In c p.
Proof.
  destruct (strip_trimmed p) as (l & r & Hp & _). intros H.
  rewrite Hp, !in_app_iff. tauto.
Qed.

(** ** More on categories and tags *)

Lemma clean_category_strip_first (val : str) :
  exists p, before_first (u " - ") val p /\ clean_category val = strip p.
Proof.
  destruct (@split_go_first (u " - ") ltac:(discriminate) val []) as [p [Hp Hhd]].
  exists p. split; [assumption|]. unfold clean_category, split.
  destruct val as [|c val]; simpl negb; cbv iota.
  - inversion Hp as [Hn | q Hq Hm]; [reflexivity|].
    destruct Hq as [rest Hrest]. destruct p; discriminate Hrest.
  - now rewrite Hhd.
Qed.

Lemma before_first_no_separator (sep s p : str) :
  sep <> [] -> before_first sep s p -> ~ substring sep p.
Proof.
  intros Hsep Hp. inversion Hp as [Hn | q [rest Hs] Hmin]; subst; [assumption|].
  intros (a & b & Hab).
  assert (Hocc : occurs_after sep (p ++ sep ++ rest) a).
  { exists (b ++ sep ++ rest). rewrite Hab. now rewrite <- !app_assoc. }
  apply Hmin in Hocc. rewrite Hab, !length_app in Hocc.
  destruct sep; [congruence | simpl in Hocc; lia].
Qed.

(** X1: the result of [clean_category] never contains the [" - "]
    separator, and cleaning a cleaned category changes nothing. *)
Theorem clean_category_idempotent :
  forall val : str,
    ~ substring (u " - ") (clean_category val)
    /\ clean_category (clean_category val) = clean_category val.
Proof.
  intros val.
  destruct (clean_category_strip_first val) as (p & Hp & Heq).
  assert (Hno : ~ substring (u " - ") (clean_category val)).
  { rewrite Heq. intros H. apply strip_substring in H.
    exact (@before_first_no_separator (u " - ") val p ltac:(discriminate) Hp H). }
  split; [exact Hno|].
  destruct (clean_category_strip_first (clean_category val)) as (q & Hq & Heq').
  rewrite Heq'.
  rewrite <- (before_first_unique (before_first_none Hno) Hq).
  rewrite Heq. apply strip_idempotent.
Qed.

Lemma split_go_char_length (c : char) (s : str) :
  forall cur, List.length (split_go [c] 0 cur s) = S (count_char c s).
Proof.
  unfold count_char.
  induction s as [|x s IH]; intros cur; [reflexivity|].
  cbn [split_go startswith List.length Nat.sub count_occ].
  destruct (N.eq_dec x c) as [->|Hne].
  - rewrite N.eqb_refl. cbn [andb List.length]. now rewrite IH.
  - replace (c =? x)%N with false by (symmetry; apply N.eqb_neq; congruence).
    cbn [andb]. apply IH.
Qed.

Lemma tags_of_length (field : str) :
  field <> u "" -> List.length (tags_of field) = S (count_char 44%N field).
Proof.
  intros Hne. unfold tags_of.
  destruct field as [|c field]; [now elim Hne|]. cbn [truthy].
  rewrite length_map. apply (split_go_char_length 44%N).
Qed.

Lemma tags_of_each (field : str) :
  Forall (fun tag => ~ In 44%N tag /\ no_edge_space tag) (tags_of field).
Proof.
  unfold tags_of. destruct (truthy field); [|constructor].
  apply Forall_map.
  pose proof (@split_go_char_pieces 44%N field [] (fun H => H)) as Hp.
  unfold split. change (u ",") with [44%N].
  eapply Forall_impl; [|exact Hp]. intros piece Hpiece. split.
  - intros H. now apply strip_In in H.
  - destruct (strip_trimmed piece) as (l & r & _ & _ & _ & Hedge). exact Hedge.
Qed.

Lemma split_go_no_sep (c : char) (s : str) :
  forall cur, ~ In c s -> split_go [c] 0 cur s = [cur ++ s].
Proof.
  induction s as [|x s IH]; intros cur Hs.
  - now rewrite app_nil_r.
  - cbn [split_go startswith].
    replace (c =? x)%N with false
      by (symmetry; apply N.eqb_neq; intros ->; apply Hs; now left).
    cbn [andb]. rewrite IH by (intros H; apply Hs; now right).
    now rewrite <- app_assoc.
Qed.

Lemma split_join_char (c : char) (pieces : list str) :
  pieces <> [] -> Forall (fun p => ~ In c p) pieces ->
  split [c] (join [c] pieces) = pieces.
Proof.
  induction pieces as [|p rest IH]; [congruence|]. intros _ Hall.
  inversion Hall as [|? ? Hp Hrest]; subst.
  destruct rest as [|q rest].
  - simpl. unfold split. now rewrite split_go_no_sep.
  - rewrite join_cons by discriminate. cbn [app].
    rewrite split_char_app, IH by (assumption || discriminate).
    unfold split at 1. now rewrite split_go_no_sep.
Qed.

(** X3: writing the tags of a field back with commas and splitting again
    gives the same tags, whenever the joined text is not empty. *)
Theorem tags_join_round_trip :
  forall field : str,
    join (u ",") (tags_of field) <> u "" ->
    tags_of (join (u ",") (tags_of field)) = tags_of field.
Proof.
  intros field Hjoin.
  assert (Hne : field <> u "") by (intros ->; now apply Hjoin).
  pose proof (tags_of_length Hne) as Hlen. pose proof (tags_of_each field) as Hshape.
  set (tags := tags_of field) in *.
  unfold tags_of at 1.
  destruct (join (u ",") tags) as [|c joined] eqn:Hj; [now elim Hjoin|].
  cbn [truthy]. rewrite <- Hj. change (u ",") with [44%N].
  rewrite split_join_char.
  - rewrite <- (map_id tags) at 2. apply map_ext_Forall.
    eapply Forall_impl; [|exact Hshape]. intros tag [_ Hedge].
    apply strip_of_trimmed. exists [], []. rewrite app_nil_r.
    repeat split; try constructor; apply Hedge.
  - intros Htags. rewrite Htags in Hlen. discriminate Hlen.
  - eapply Forall_impl; [|exact Hshape]. now intros tag [Hc _].
Qed.

Lemma tags_join_round_trip_witness :
  tags_of (join (u ",") (tags_of (u " a, b ,c"))) = tags_of (u " a, b ,c").
Proof. apply (@tags_join_round_trip (u " a, b ,c")). discriminate. Defined.

(** ** More on record identifiers *)

Lemma to_string_u (s : string) : to_string (u s) = s.
Proof.
  unfold to_string, u. rewrite map_map.
  rewrite (map_ext _ (fun a => a)) by apply ascii_N_embedding.
  rewrite map_id. apply string_of_list_ascii_of_string.
Qed.

Lemma to_string_app (a b : str) :
  to_string (a ++ b) = (to_string a ++ to_string b)%string.
Proof.
  unfold to_string. induction a as [|x a IH]; simpl; [reflexivity | now rewrite IH].
Qed.

Lemma digits_all_digit_uint (d : Decimal.uint) :
  Forall (fun c => is_digit c = true) (u (NilEmpty.string_of_uint d)).
Proof. induction d; simpl; constructor; (reflexivity || assumption). Qed.

Lemma digits_nilzero (n : Z) :
  exists d, d <> Decimal.Nil
            /\ digits n = u (NilEmpty.string_of_uint d)
            /\ N.of_uint d = Z.to_N n.
Proof.
  unfold digits. exists (N.to_uint (Z.to_N n)). split; [|split].
  - destruct (Z.to_N n); simpl; [discriminate | apply DecimalPos.Unsigned.to_uint_nonnil].
  - destruct (N.to_uint (Z.to_N n)) eqn:E; try reflexivity.
    exfalso. destruct (Z.to_N n); simpl in E; [discriminate|].
    now apply DecimalPos.Unsigned.to_uint_nonnil in E.
  - apply DecimalN.Unsigned.of_to.
Qed.

Lemma digits_all_digit (n : Z) : Forall (fun c => is_digit c = true) (digits n).
Proof.
  destruct (digits_nilzero n) as (d & _ & -> & _). apply digits_all_digit_uint.
Qed.

Lemma digits_nonempty (n : Z) : digits n <> [].
Proof.
  destruct (digits_nilzero n) as (d & Hd & -> & _). now destruct d.
Qed.

Lemma uint_of_zero_padded (k : nat) (d : Decimal.uint) :
  exists d',
    NilEmpty.uint_of_string
      (to_string (repeat 48%N k) ++ NilEmpty.string_of_uint d)%string = Some d'
    /\ N.of_uint d' = N.of_uint d.
Proof.
  induction k as [|k (d' & Hd' & Hv)].
  - exists d. split; [apply NilEmpty.usu | reflexivity].
  - exists (Decimal.D0 d'). split; [|exact Hv].
    change (to_string (repeat 48%N (S k)))
      with (String "0"%char (to_string (repeat 48%N k))).
    cbn [String.append NilEmpty.uint_of_string]. now rewrite Hd'.
Qed.

Lemma decimal_value_padded (k : nat) (n : Z) :
  decimal_value (repeat 48%N k ++ digits n) = Some (Z.to_N n).
Proof.
  destruct (digits_nilzero n) as (d & Hd & Hdig & Hval).
  unfold decimal_value. rewrite to_string_app, Hdig, to_string_u.
  destruct (uint_of_zero_padded k d) as (d' & Hd' & Hv).
  unfold NilZero.uint_of_string.
  destruct (to_string (repeat 48%N k) ++ NilEmpty.string_of_uint d)%string eqn:E.
  - exfalso. destruct k; [|discriminate E]. simpl in E. now destruct d.
  - rewrite Hd'. simpl. now rewrite Hv, Hval.
Qed.

Lemma format_0d_nonneg (width : nat) (n : Z) :
  (0 <= n)%Z ->
  format_0d width n = repeat 48%N (width - List.length (digits n)) ++ digits n.
Proof.
  intros Hn. unfold format_0d.
  now replace (n <? 0)%Z with false by (symmetry; apply Z.ltb_ge; lia).
Qed.

Lemma format_0d_3_digits (n : Z) :
  (0 <= n)%Z ->
  3 <= List.length (format_0d 3 n)
  /\ Forall (fun c => is_digit c = true) (format_0d 3 n).
Proof.
  intros Hn. rewrite format_0d_nonneg by assumption. split.
  - rewrite length_app, repeat_length. apply Nat.sub_add_le.
  - apply Forall_app. split; [|apply digits_all_digit].
    apply Forall_forall. intros c Hc. apply repeat_spec in Hc. now subst.
Qed.

Lemma format_0d_value (width : nat) (n : Z) :
  (0 <= n)%Z -> decimal_value (format_0d width n) = Some (Z.to_N n).
Proof.
  intros Hn. rewrite format_0d_nonneg by assumption. apply decimal_value_padded.
Qed.

(** X4: for every index from 0 on, the id is the code, an underscore and a
    suffix of at least three decimal digits, and reading the suffix as a
    number gives the index plus one: the width grows past 999 and no digit
    is lost. *)
Theorem index_to_id_suffix_round_trip :
  forall (file_code : str) (idx : Z),
    (0 <= idx)%Z ->
    exists suffix,
      index_to_id file_code idx = file_code ++ u "_" ++ suffix
      /\ decimal_value suffix = Some (Z.to_N (idx + 1))
      /\ 3 <= List.length suffix
      /\ Forall (fun c => is_digit c = true) suffix.
Proof.
  intros file_code idx Hidx. exists (format_0d 3 (idx + 1)).
  split; [reflexivity|]. split.
  - apply format_0d_value. lia.
  - apply format_0d_3_digits. lia.
Qed.

Lemma index_to_id_suffix_round_trip_witness :
  exists suffix,
    index_to_id (u "kr") 1233 = u "kr" ++ u "_" ++ suffix
    /\ decimal_value suffix = Some 1234%N
    /\ 3 <= List.length suffix
    /\ Forall (fun c => is_digit c = true) suffix.
Proof. apply (@index_to_id_suffix_round_trip (u "kr") 1233). lia. Defined.

Lemma split_at_last (c : char) (a b x y : str) :
  ~ In c x -> ~ In c y -> a ++ c :: x = b ++ c :: y -> a = b /\ x = y.
Proof.
  intros Hx Hy. revert b. induction a as [|a0 a IH]; intros [|b0 b] H; simpl in H.
  - injection H as ->. now split.
  - injection H as <- ->. exfalso. apply Hx. rewrite in_app_iff. right. now left.
  - injection H as -> <-. exfalso. apply Hy. rewrite in_app_iff. right. now left.
  - injection H as -> H. destruct (IH _ H) as [-> ->]. now split.
Qed.

Lemma is_digit_not_underscore (s : str) :
  Forall (fun c => is_digit c = true) s -> ~ In 95%N s.
Proof.
  intros H Hin. rewrite Forall_forall in H. specialize (H _ Hin). discriminate H.
Qed.

Lemma index_to_id_inj (code1 code2 : str) (i j : Z) :
  (0 <= i)%Z -> (0 <= j)%Z ->
  index_to_id code1 i = index_to_id code2 j -> code1 = code2 /\ i = j.
Proof.
  intros Hi Hj H. unfold index_to_id in H.
  change (u "_") with [95%N] in H. cbn [app] in H.
  apply split_at_last in H;
    try (apply is_digit_not_underscore, format_0d_3_digits; lia).
  destruct H as [-> H]. split; [reflexivity|].
  apply (f_equal decimal_value) in H.
  rewrite !format_0d_value in H by lia.
  injection H as V. apply Z2N.inj in V; lia.
Qed.

(** X5: ids are unique without any bound: two ids built from indices from 0
    on differ whenever the codes or the indices differ, so ids never collide
    inside a group, however large, nor between groups with different
    codes. *)
Theorem index_to_id_injective :
  forall (code1 code2 : str) (i j : Z),
    (0 <= i)%Z -> (0 <= j)%Z ->
    code1 <> code2 \/ i <> j ->
    index_to_id code1 i <> index_to_id code2 j.
Proof.
  intros code1 code2 i j Hi Hj Hdiff H.
  destruct (index_to_id_inj code1 code2 Hi Hj H) as [Hc Hij]. tauto.
Qed.

Lemma index_to_id_injective_witness :
  index_to_id (u "kr") 0 <> index_to_id (u "kr") 1000
  /\ index_to_id (u "kr") 5 <> index_to_id (u "us") 5.
Proof.
  split.
  - apply (@index_to_id_injective (u "kr") (u "kr") 0 1000); [lia | lia | right; lia].
  - apply (@index_to_id_injective (u "kr") (u "us") 5 5); [lia | lia | left; discriminate].
Defined.

(** ** More on the notifier and the resolver *)

Lemma strip_nil_iff (s : str) : strip s = [] <-> all_space s.
Proof.
  split.
  - intros H. destruct (strip_trimmed s) as (l & r & Hs & Hl & Hr & _).
    rewrite H in Hs. rewrite Hs. apply Forall_app. now split.
  - intros H. apply strip_of_trimmed. exists s, [].
    rewrite app_nil_r. repeat split; try constructor; try assumption;
      intros c x Hc; [discriminate Hc | now destruct x].
Qed.

Lemma lookups_app (t1 t2 : trace) :
  lookups (t1 ++ t2) = lookups t1 ++ lookups t2.
Proof.
  induction t1 as [|e t1 IH]; [reflexivity|].
  destruct e; simpl; now rewrite IH.
Qed.

Section NotifierMore.

Variable env_SLACK_WEBHOOK_URL : option str.
Variable urlopen : trace -> str -> str -> http_outcome.

Local Abbreviation notify := (send_slack_message env_SLACK_WEBHOOK_URL urlopen).
Local Abbreviation webhook := (SLACK_WEBHOOK_URL env_SLACK_WEBHOOK_URL).
Local Abbreviation notified := (notify_events env_SLACK_WEBHOOK_URL urlopen).

Lemma notify_events_attempts (message : str) (t : trace) :
  transport_attempts (notified message t)
  = match webhook with
    | Some (c :: url) => [(c :: url, message)]
    | _ => []
    end.
Proof. unfold notify_events. now destruct webhook as [[|c url]|]. Qed.

Lemma notify_events_lookups (message : str) (t : trace) :
  lookups (notified message t) = [].
Proof. unfold notify_events. now destruct webhook as [[|c url]|]. Qed.

Lemma webhook_blank_iff :
  match webhook with Some (_ :: _) => False | _ => True end
  <-> env_SLACK_WEBHOOK_URL = None
      \/ exists raw, env_SLACK_WEBHOOK_URL = Some raw /\ all_space raw.
Proof.
  unfold SLACK_WEBHOOK_URL.
  destruct env_SLACK_WEBHOOK_URL as [[|c raw]|]; cbn [truthy].
  - split; [intros _; right; exists []; split; [reflexivity | constructor] | tauto].
  - destruct (strip (c :: raw)) as [|c' url] eqn:E.
    + split; [intros _; right; exists (c :: raw); split;
                [reflexivity | now apply strip_nil_iff] | tauto].
    + split; [tauto|]. intros [H | (raw' & [= <-] & H)]; [discriminate|].
      apply strip_nil_iff in H. congruence.
  - split; [now left | tauto].
Qed.

(** X6: one call of the notifier makes at most one transport attempt,
    whatever the transport answers: there is no retry.  An attempt goes to
    the stripped webhook URL and carries the message unchanged. *)
Theorem send_slack_message_single_attempt :
  forall (message : str) (t : trace),
    exists t',
      notify message t = (Ok tt, t')
      /\ (transport_attempts t' = transport_attempts t
          \/ exists raw,
               env_SLACK_WEBHOOK_URL = Some raw
               /\ transport_attempts t'
                  = transport_attempts t ++ [(strip raw, message)]).
Proof.
  intros message t. eexists. split; [apply send_slack_message_run|].
  rewrite transport_attempts_app, notify_events_attempts.
  unfold SLACK_WEBHOOK_URL.
  destruct env_SLACK_WEBHOOK_URL as [[|c raw]|]; cbn [truthy];
    try (left; now rewrite app_nil_r).
  destruct (strip (c :: raw)) as [|c' url] eqn:E; [left; now rewrite app_nil_r|].
  right. exists (c :: raw). now rewrite E.
Qed.

End NotifierMore.

Section ResolverMore.

Variable unicode_lower : str -> str.
Variable countries_lookup : str -> res pycountry.country.
Variable env_SLACK_WEBHOOK_URL : option str.
Variable urlopen : trace -> str -> str -> http_outcome.

Local Abbreviation resolve :=
  (get_country_info unicode_lower countries_lookup env_SLACK_WEBHOOK_URL urlopen).

(** X8: the fallback code never contains a space; for an ASCII name it has
    the length of the name and no capital letter, and a lower-case ASCII
    name without spaces is its own code. *)
Theorem get_country_info_fallback_code_shape :
  forall (name : str) (t : trace) (e : exn),
    ~ In name (map fst exceptions) ->
    countries_lookup name = Raised e ->
    exists code flag_url t',
      resolve name t = (Ok (code, name, flag_url), t')
      /\ ~ In 32%N code
      /\ (is_ascii name = true ->
          List.length code = List.length name
          /\ Forall (fun c => (c < 128)%N /\ ~ (65 <= c <= 90)%N) code)
      /\ (is_ascii name = true ->
          Forall (fun c => ~ (65 <= c <= 90)%N /\ c <> 32%N) name ->
          code = name).
Proof.
  intros name t e Hnot He. rewrite get_country_info_run.
  apply (dict_get_None unicode_lower countries_lookup) in Hnot.
  rewrite Hnot, He. cbv zeta.
  do 3 eexists. split; [reflexivity|].
  unfold fallback_code. rewrite replace_space_underscore.
  split; [|split].
  - rewrite in_map_iff. intros (c & Hc & _).
    destruct (c =? 32)%N eqn:E; [discriminate|]. apply N.eqb_neq in E. congruence.
  - intros Hascii. unfold lower. rewrite Hascii, !length_map.
    split; [reflexivity|].
    unfold is_ascii in Hascii. rewrite forallb_forall in Hascii.
    rewrite !Forall_map. apply Forall_forall. intros c Hc.
    specialize (Hascii c Hc). apply N.ltb_lt in Hascii.
    unfold ascii_lower_char.
    destruct ((65 <=? c) && (c <=? 90))%N eqn:E.
    + apply andb_true_iff in E as [E1 E2]. apply N.leb_le in E1, E2.
      replace (c + 32 =? 32)%N with false by (symmetry; apply N.eqb_neq; lia). lia.
    + destruct (c =? 32)%N eqn:E'; [lia|].
      apply andb_false_iff in E as [E | E]; apply N.leb_gt in E; lia.
  - intros Hascii Hlow. unfold lower. rewrite Hascii, map_map.
    rewrite <- (map_id name) at 2. apply map_ext_Forall.
    eapply Forall_impl; [|exact Hlow]. intros c [Hup Hsp]. unfold ascii_lower_char.
    destruct ((65 <=? c) && (c <=? 90))%N eqn:E.
    + apply andb_true_iff in E as [E1 E2]. apply N.leb_le in E1, E2. lia.
    + now replace (c =? 32)%N with false by (symmetry; now apply N.eqb_neq).
Qed.

End ResolverMore.

Lemma get_country_info_fallback_code_shape_witness :
  exists code flag_url t',
    get_country_info sample_lower sample_lookup None sample_urlopen
                     (u "wonderland") []
    = (Ok (code, u "wonderland", flag_url), t')
    /\ ~ In 32%N code
    /\ (is_ascii (u "wonderland") = true ->
        List.length code = List.length (u "wonderland")
        /\ Forall (fun c => (c < 128)%N /\ ~ (65 <= c <= 90)%N) code)
    /\ (is_ascii (u "wonderland") = true ->
        Forall (fun c => ~ (65 <= c <= 90)%N /\ c <> 32%N) (u "wonderland") ->
        code = u "wonderland").
Proof.
  apply (@get_country_info_fallback_code_shape sample_lower sample_lookup None
           sample_urlopen (u "wonderland") []
           (Exception (u "Could not find a record for wonderland"))).
  - simpl. intuition discriminate.
  - reflexivity.
Defined.

(** ** Grouping by country *)

Lemma str_leb_cons (x y : char) (a b : str) :
  str_leb (x :: a) (y :: b) = true
  <-> (x < y)%N \/ x = y /\ str_leb a b = true.
Proof.
  cbn [str_leb]. rewrite orb_true_iff, andb_true_iff, N.ltb_lt, N.eqb_eq. tauto.
Qed.

Lemma str_leb_total (a b : str) : str_leb a b = true \/ str_leb b a = true.
Proof.
  revert b. induction a as [|x a IH]; intros [|y b]; try (now left); try (now right).
  rewrite !str_leb_cons. destruct (N.lt_total x y) as [H | [H | H]];
    [tauto | | tauto].
  destruct (IH b); [left | right]; right; split; congruence.
Qed.

Lemma str_leb_antisym (a b : str) :
  str_leb a b = true -> str_leb b a = true -> a = b.
Proof.
  revert b. induction a as [|x a IH]; intros [|y b]; try discriminate; [reflexivity|].
  rewrite !str_leb_cons. intros [H1 | [-> H1]] [H2 | [H2' H2]]; try lia.
  f_equal. now apply IH.
Qed.

Lemma str_leb_trans (a b c : str) :
  str_leb a b = true -> str_leb b c = true -> str_leb a c = true.
Proof.
  revert b c. induction a as [|x a IH]; intros [|y b] [|z c];
    try discriminate; try reflexivity.
  rewrite !str_leb_cons. intros [H1 | [-> H1]] [H2 | [-> H2]];
    [left; lia | left; lia | left; lia |].
  right. split; [reflexivity | now apply (IH b)].
Qed.

Lemma str_lt_trans_le (a b c : str) :
  str_leb a b = true -> str_lt b c -> str_lt a c.
Proof.
  intros Hab [Hbc Hne]. split; [now apply (str_leb_trans a b c)|].
  intros ->. apply Hne. now apply str_leb_antisym.
Qed.

Lemma insert_key_In (k x : str) (ks : list str) :
  In x (insert_key k ks) <-> x = k \/ In x ks.
Proof.
  induction ks as [|k' ks IH]; simpl; [intuition congruence|].
  destruct (str_eqb k k') eqn:E.
  - apply str_eqb_eq in E as ->. simpl. intuition congruence.
  - destruct (str_leb k k'); simpl; [intuition congruence|].
    rewrite IH. intuition congruence.
Qed.

Lemma insert_key_sorted (k : str) (ks : list str) :
  StronglySorted str_lt ks -> StronglySorted str_lt (insert_key k ks).
Proof.
  induction 1 as [|k' ks Hs IH Hall]; simpl; [repeat constructor|].
  destruct (str_eqb k k') eqn:E; [now constructor|].
  apply str_eqb_neq in E.
  destruct (str_leb k k') eqn:L.
  - constructor; [now constructor|]. constructor; [now split|].
    eapply Forall_impl; [|exact Hall]. intros x Hx. eapply str_lt_trans_le; eassumption.
  - constructor; [exact IH|].
    apply Forall_forall. intros x Hx. apply insert_key_In in Hx as [-> | Hx].
    + destruct (str_leb_total k k') as [H | H]; [congruence|]. split; congruence.
    + rewrite Forall_forall in Hall. now apply Hall.
Qed.

Lemma keys_sorted (l : list str) :
  StronglySorted str_lt (fold_right insert_key [] l).
Proof. induction l; simpl; [constructor | now apply insert_key_sorted]. Qed.

Lemma keys_In (l : list str) (x : str) :
  In x (fold_right insert_key [] l) <-> In x l.
Proof.
  induction l as [|k l IH]; simpl; [tauto|].
  rewrite insert_key_In, IH. intuition congruence.
Qed.

Lemma sorted_NoDup (ks : list str) : StronglySorted str_lt ks -> NoDup ks.
Proof.
  induction 1 as [|k ks Hs IH Hall]; constructor; [|exact IH].
  intros Hin. rewrite Forall_forall in Hall. now destruct (Hall k Hin).
Qed.

Lemma countries_of_keys (df : list Row) :
  countries_of df = fold_right insert_key [] (map Country df).
Proof.
  unfold countries_of, groupby_Country. rewrite map_map. cbn [fst]. apply map_id.
Qed.

Lemma list_sum_cons (a : nat) (l : list nat) : list_sum (a :: l) = a + list_sum l.
Proof. reflexivity. Qed.

Lemma count_key_once (k : str) (ks : list str) :
  NoDup ks -> In k ks ->
  list_sum (map (fun k' => if str_eqb k k' then 1 else 0) ks) = 1.
Proof.
  induction 1 as [|k' ks Hk' Hnd IH]; [intros []|].
  intros [-> | Hin]; cbn [map]; rewrite list_sum_cons.
  - replace (str_eqb k k) with true by (symmetry; now apply str_eqb_eq).
    assert (Hz : list_sum (map (fun k' => if str_eqb k k' then 1 else 0) ks) = 0).
    { clear IH Hnd. induction ks as [|x ks IHks]; [reflexivity|].
      cbn [map]. rewrite list_sum_cons.
      replace (str_eqb k x) with false
        by (symmetry; apply str_eqb_neq; intros ->; apply Hk'; now left).
      apply IHks. intros H. apply Hk'. now right. }
    now rewrite Hz.
  - replace (str_eqb k k') with false
      by (symmetry; apply str_eqb_neq; intros ->; now apply Hk').
    now rewrite IH.
Qed.

(** The groups of a sheet hold each row once. *)
Lemma group_sizes_sum (df : list Row) (ks : list str) :
  NoDup ks -> (forall r, In r df -> In (Country r) ks) ->
  list_sum (map (fun k => List.length (filter (fun r => str_eqb (Country r) k) df)) ks)
  = List.length df.
Proof.
  intros Hnd. induction df as [|r df IH]; intros Hcov.
  - cbn [filter List.length]. clear. induction ks; [reflexivity|].
    cbn [map]. now rewrite list_sum_cons.
  - cbn [List.length]. rewrite <- IH by (intros r' Hr'; apply Hcov; now right).
    pose proof (@count_key_once (Country r) ks Hnd (Hcov r (or_introl eq_refl)))
      as Hone.
    change (S ?n) with (1 + n). rewrite <- Hone.
    clear. induction ks as [|k ks IHks]; [reflexivity|].
    rewrite !map_cons, !list_sum_cons, IHks. cbn [filter].
    destruct (str_eqb (Country r) k); cbn [List.length]; lia.
Qed.

(** ** More on the run *)

Section RunMore.

Variable unicode_lower unicode_upper : str -> str.
Variable countries_lookup : str -> res pycountry.country.
Variable env_SLACK_WEBHOOK_URL : option str.
Variable urlopen : trace -> str -> str -> http_outcome.

Local Abbreviation resolve :=
  (get_country_info unicode_lower countries_lookup env_SLACK_WEBHOOK_URL urlopen).
Local Abbreviation loop :=
  (for_groups unicode_lower unicode_upper countries_lookup env_SLACK_WEBHOOK_URL urlopen).
Local Abbreviation run :=
  (main unicode_lower unicode_upper countries_lookup env_SLACK_WEBHOOK_URL urlopen).
Local Abbreviation webhook := (SLACK_WEBHOOK_URL env_SLACK_WEBHOOK_URL).
Local Abbreviation notified := (notify_events env_SLACK_WEBHOOK_URL urlopen).
Local Abbreviation code_of := (resolved_code unicode_lower countries_lookup).
Local Abbreviation name_of := (resolved_name countries_lookup).
Local Abbreviation fallback := (falls_back countries_lookup).
Local Abbreviation warning := (warning_for unicode_lower).
Local Abbreviation entry_for := (index_entry_for unicode_lower countries_lookup).
Local Abbreviation written_for :=
  (file_for unicode_lower unicode_upper countries_lookup).

(** The transport attempts of the warnings of a list of names. *)
Local Abbreviation attempts_for names :=
  (match webhook with
   | Some (c :: url) => map (fun n => (c :: url, warning n)) names
   | _ => []
   end).

Lemma get_country_info_view (name : str) (t : trace) :
  exists evs,
    resolve name t
    = (Ok (code_of name, name_of name, flag_url_of (code_of name)), t ++ evs)
    /\ dumped_records evs = []
    /\ dumped_indexes evs = []
    /\ slack_calls evs = (if fallback name then [warning name] else [])
    /\ lookups evs = (if needs_lookup name then [name] else [])
    /\ transport_attempts evs = attempts_for (if fallback name then [name] else []).
Proof.
  rewrite get_country_info_run.
  unfold resolved_code, resolved_name, falls_back, needs_lookup, warning_for.
  destruct (dict_get exceptions name) as [[code full_name]|];
    [|destruct (countries_lookup name) as [c|e]]; cbv zeta.
  - exists []. rewrite app_nil_r. repeat split; now destruct webhook as [[|? ?]|].
  - exists [CountriesLookup name]. repeat split; now destruct webhook as [[|? ?]|].
  - eexists. rewrite <- app_assoc. split; [reflexivity|].
    rewrite dumped_records_app, dumped_indexes_app, slack_calls_app, lookups_app,
      transport_attempts_app.
    rewrite notify_events_calls, notify_events_lookups, notify_events_attempts.
    match goal with
    | |- context [notify_events ?e ?o ?m ?t0] =>
        destruct (notify_events_dumps e o m t0) as [-> ->]
    end.
    repeat split; now destruct webhook as [[|? ?]|].
Qed.

Lemma attempts_for_app (a b : list str) :
  attempts_for (a ++ b) = attempts_for a ++ attempts_for b.
Proof. destruct webhook as [[|? ?]|]; [reflexivity | apply map_app | reflexivity]. Qed.

Lemma for_groups_view (groups : list (str * list Row)) :
  forall (index_data : list IndexEntry) (t : trace),
    exists evs,
      loop groups index_data t = (Ok (index_data ++ map entry_for groups), t ++ evs)
      /\ dumped_records evs = map written_for groups
      /\ dumped_indexes evs = []
      /\ slack_calls evs = map warning (filter fallback (map fst groups))
      /\ lookups evs = filter needs_lookup (map fst groups)
      /\ transport_attempts evs = attempts_for (filter fallback (map fst groups)).
Proof.
  induction groups as [|[country_name group] rest IH]; intros index_data t.
  - exists []. simpl. unfold ret. rewrite !app_nil_r. repeat split.
    now destruct webhook as [[|? ?]|].
  - destruct (get_country_info_view country_name t)
      as (evs1 & Hrun & Hrec & Hidx & Hcalls & Hlook & Hatt).
    cbn [for_groups]. unfold bind at 1. rewrite Hrun.
    unfold bind, print, emit. cbv beta iota zeta.
    match goal with
    | |- context [loop rest ?i ?t'] =>
        destruct (IH i t') as (evs & Hloop & Hrec' & Hidx' & Hcalls' & Hlook' & Hatt')
    end.
    rewrite Hloop.
    eexists (evs1 ++ _ :: _ :: evs).
    split; [|split; [|split; [|split; [|split]]]].
    + rewrite <- !app_assoc. cbn [app map]. do 2 f_equal.
      unfold index_entry_for, path_for. cbn [fst snd].
      now rewrite build_json_data_length.
    + rewrite dumped_records_app, Hrec. cbn. now rewrite Hrec'.
    + rewrite dumped_indexes_app, Hidx. exact Hidx'.
    + rewrite slack_calls_app, Hcalls. cbn [slack_calls map filter fst].
      rewrite Hcalls'. now destruct (fallback country_name).
    + rewrite lookups_app, Hlook. cbn [lookups map filter fst].
      rewrite Hlook'. now destruct (needs_lookup country_name).
    + rewrite transport_attempts_app, Hatt. cbn [transport_attempts map filter fst].
      rewrite Hatt', <- attempts_for_app. now destruct (fallback country_name).
Qed.

Lemma fold_left_Zadd_counts (l : list nat) (a : Z) :
  fold_left Z.add (map Z.of_nat l) a = (a + Z.of_nat (list_sum l))%Z.
Proof.
  revert a. induction l as [|n l IH]; intros a; [simpl; lia|].
  cbn [map fold_left]. rewrite IH, list_sum_cons. lia.
Qed.

Lemma groupby_sizes (df : list Row) :
  list_sum (map (fun g : str * list Row => List.length (snd g)) (groupby_Country df))
  = List.length df.
Proof.
  unfold groupby_Country. rewrite map_map. cbn [snd].
  apply group_sizes_sum.
  - apply sorted_NoDup, keys_sorted.
  - intros r Hr. apply keys_In. now apply in_map.
Qed.

Lemma index_counts_sum (groups : list (str * list Row)) :
  fold_left Z.add (map entry_count (map entry_for groups)) 0%Z
  = Z.of_nat (list_sum (map (fun g : str * list Row => List.length (snd g)) groups)).
Proof.
  rewrite map_map. unfold index_entry_for. cbn [entry_count].
  rewrite <- (map_map (fun g : str * list Row => List.length (snd g)) Z.of_nat).
  now rewrite fold_left_Zadd_counts.
Qed.

(** The whole trace of a run on a sheet that loads. *)
Lemma main_view (raw : list RawRow) :
  let groups := groupby_Country (fillna raw) in
  let summary :=
    summary_message (Z.of_nat (List.length groups)) (Z.of_nat (List.length raw)) in
  exists evs post,
    run (Ok raw) []
    = (Ok tt,
       Makedirs (u "contributors")
         :: evs ++ JsonDump (u "contributors/index.json") (Index (map entry_for groups))
         :: post)
    /\ (dumped_records evs = map written_for groups
        /\ dumped_indexes evs = []
        /\ slack_calls evs = map warning (filter fallback (map fst groups))
        /\ lookups evs = filter needs_lookup (map fst groups)
        /\ transport_attempts evs = attempts_for (filter fallback (map fst groups)))
    /\ (dumped_records post = []
        /\ dumped_indexes post = []
        /\ slack_calls post = [summary]
        /\ lookups post = []
        /\ transport_attempts post
           = match webhook with
             | Some (c :: url) => [(c :: url, summary)]
             | _ => []
             end).
Proof.
  intros groups summary. unfold main, try_except_Exception, lift, ret.
  unfold bind at 1 2. cbv beta iota.
  unfold bind at 1. unfold emit at 1. cbv beta iota.
  unfold bind at 1.
  destruct (for_groups_view (groupby_Country (fillna raw)) []
              ([] ++ [Makedirs (u "contributors")]))
    as (evs & Hloop & Hview).
  rewrite Hloop. cbn [app]. cbv zeta.
  unfold bind, print, emit. cbv beta iota.
  rewrite send_slack_message_run.
  fold groups in Hview |- *.
  assert (Hsum : summary_message
                   (Z.of_nat (List.length (map entry_for groups)))
                   (fold_left Z.add (map entry_count (map entry_for groups)) 0%Z)
                 = summary).
  { subst summary. rewrite length_map, index_counts_sum. subst groups.
    rewrite groupby_sizes. unfold fillna. now rewrite length_map. }
  unfold summary_message in Hsum at 1. rewrite Hsum.
  exists evs. eexists. split; [|split; [exact Hview|]].
  - rewrite <- !app_assoc. cbn [app]. reflexivity.
  - cbn [dumped_records dumped_indexes slack_calls lookups transport_attempts].
    rewrite notify_events_calls, notify_events_lookups, notify_events_attempts.
    match goal with
    | |- context [notify_events ?e ?o ?m ?t0] =>
        destruct (notify_events_dumps e o m t0) as [-> ->]
    end.
    repeat split.
Qed.

(** *** The records of a file *)

Lemma append_items_map (file_code : str) (l : list (Z * Row)) :
  forall acc,
    fold_left (fun json_data '(i, row) =>
                 json_data ++ [build_item unicode_upper file_code i row]) l acc
    = acc ++ map (fun ir => build_item unicode_upper file_code (fst ir) (snd ir)) l.
Proof.
  induction l as [|[i row] l IH]; intros acc; cbn [fold_left map fst snd].
  - now rewrite app_nil_r.
  - now rewrite IH, <- app_assoc.
Qed.

Lemma build_json_data_map (file_code : str) (group : list Row) :
  build_json_data unicode_upper file_code group
  = map (fun ir => build_item unicode_upper file_code (fst ir) (snd ir))
        (enumerate group).
Proof. unfold build_json_data. now rewrite append_items_map. Qed.

Lemma enumerate_from_snd {A} (l : list A) (i : Z) :
  map snd (enumerate_from i l) = l.
Proof. revert i. induction l as [|x l IH]; intros i; simpl; [|rewrite IH]; reflexivity. Qed.

Lemma enumerate_from_fst {A} (l : list A) (i : Z) :
  map fst (enumerate_from i l)
  = map (fun k => (i + Z.of_nat k)%Z) (seq 0 (List.length l)).
Proof.
  revert i. induction l as [|x l IH]; intros i; [reflexivity|].
  cbn [enumerate_from map fst List.length seq]. rewrite IH, <- seq_shift, map_map.
  f_equal; [f_equal; lia|]. apply map_ext. intros k. lia.
Qed.

Lemma build_json_data_ids (file_code : str) (group : list Row) :
  map item_id (build_json_data unicode_upper file_code group)
  = map (fun k => index_to_id file_code (Z.of_nat k)) (seq 0 (List.length group)).
Proof.
  rewrite build_json_data_map, map_map. cbn [item_id build_item].
  rewrite <- (map_map fst (index_to_id file_code)). unfold enumerate.
  now rewrite enumerate_from_fst, map_map.
Qed.

Lemma build_json_data_ids_NoDup (file_code : str) (group : list Row) :
  NoDup (map item_id (build_json_data unicode_upper file_code group)).
Proof.
  rewrite build_json_data_ids. apply NoDup_map_NoDup_ForallPairs; [|apply seq_NoDup].
  intros a b _ _ H. apply index_to_id_inj in H; lia.
Qed.

(** X9: the records of a file follow the rows of the group in sheet order:
    record [k] carries the name, URL and description of row [k] unchanged,
    its cleaned category and its tags, the id of index [k], and the
    upper-cased code as country. *)
Theorem build_json_data_rows :
  forall (file_code : str) (group : list Row),
    let json_data := build_json_data unicode_upper file_code group in
    map item_name json_data = map Organization_Name group
    /\ map item_url json_data = map Official_URL group
    /\ map item_desc json_data = map Description group
    /\ map item_category json_data = map (fun row => clean_category (Category row)) group
    /\ map item_tags json_data = map (fun row => tags_of (Search_Tags row)) group
    /\ map item_id json_data
       = map (fun k => index_to_id file_code (Z.of_nat k)) (seq 0 (List.length group))
    /\ Forall (fun item => item_country item = upper unicode_upper file_code) json_data.
Proof.
  intros file_code group json_data. subst json_data.
  repeat split; try (rewrite build_json_data_map, map_map; cbn [build_item item_name
    item_url item_desc item_category item_tags];
    rewrite <- (enumerate_from_snd group 0) at 2; now rewrite map_map).
  - apply build_json_data_ids.
  - rewrite build_json_data_map. apply Forall_map, Forall_forall. reflexivity.
Qed.

(** *** Whole runs *)


(** X11: in every file a run writes the record ids are pairwise different,
    however many rows the group has. *)
Theorem main_ids_unique :
  forall (raw : list RawRow) (file : str * list ContributorRecord),
    In file (dumped_records (snd (run (Ok raw) []))) ->
    NoDup (map item_id (snd file)).
Proof.
  intros raw file. destruct (main_view raw) as (evs & post & -> & Hev & Hpost).
  cbn [snd dumped_records]. rewrite dumped_records_app. cbn [dumped_records].
  destruct Hev as (-> & _), Hpost as (-> & _). rewrite app_nil_r.
  rewrite in_map_iff. intros (g & <- & _). apply build_json_data_ids_NoDup.
Qed.

(** X12: the index a run writes has one entry for each distinct value of
    the Country column, in ascending order of these values, every entry
    counts at least one row, and the counts add up to the number of rows of
    the sheet. *)
Theorem main_index_partition :
  forall raw : list RawRow,
    let countries := countries_of (fillna raw) in
    exists index_data,
      dumped_indexes (snd (run (Ok raw) [])) = [index_data]
      /\ StronglySorted str_lt countries
      /\ (forall c, In c countries <-> exists row, In row (fillna raw) /\ Country row = c)
      /\ map entry_country index_data = map name_of countries
      /\ map entry_code index_data = map code_of countries
      /\ Forall (fun entry => (1 <= entry_count entry)%Z) index_data
      /\ fold_left Z.add (map entry_count index_data) 0%Z = Z.of_nat (List.length raw).
Proof.
  intros raw countries. destruct (main_view raw) as (evs & post & -> & Hev & Hpost).
  exists (map entry_for (groupby_Country (fillna raw))).
  split; [|split; [|split; [|split; [|split; [|split]]]]].
  - cbn [snd dumped_indexes]. rewrite dumped_indexes_app. cbn [dumped_indexes].
    destruct Hev as (_ & -> & _), Hpost as (_ & -> & _). reflexivity.
  - subst countries. rewrite countries_of_keys. apply keys_sorted.
  - intros c. subst countries. rewrite countries_of_keys, keys_In, in_map_iff.
    split; intros (row & H1 & H2); exists row; tauto.
  - subst countries. unfold countries_of. now rewrite !map_map.
  - subst countries. unfold countries_of. now rewrite !map_map.
  - apply Forall_map, Forall_forall. intros [k rows] Hg. cbn [index_entry_for entry_count snd].
    unfold groupby_Country in Hg. apply in_map_iff in Hg as (k' & [= <- <-] & Hk).
    apply keys_In, in_map_iff in Hk as (row & Hc & Hrow).
    assert (Hin : In row (filter (fun r => str_eqb (Country r) k') (fillna raw))).
    { apply filter_In. split; [assumption | now apply str_eqb_eq]. }
    destruct (filter (fun r => str_eqb (Country r) k') (fillna raw)); [destruct Hin|].
    cbn [List.length]. lia.
  - rewrite index_counts_sum, groupby_sizes. unfold fillna. now rewrite length_map.
Qed.

(** X15: a run creates the directory first and writes the index after every
    per-country file; nothing is written after the index. *)
Theorem main_write_order :
  forall raw : list RawRow,
    exists index_data before after,
      snd (run (Ok raw) [])
      = Makedirs (u "contributors")
          :: before ++ JsonDump (u "contributors/index.json") (Index index_data)
          :: after
      /\ dumped_records before = dumped_records (snd (run (Ok raw) []))
      /\ dumped_indexes before = []
      /\ dumped_records after = []
      /\ dumped_indexes after = [].
Proof.
  intros raw. destruct (main_view raw) as (evs & post & -> & Hev & Hpost).
  eexists. exists evs, post. split; [reflexivity|].
  cbn [snd dumped_records]. rewrite dumped_records_app. cbn [dumped_records].
  destruct Hpost as (-> & -> & _). rewrite app_nil_r.
  now destruct Hev as (_ & -> & _).
Qed.

End RunMore.

(** X17: what a run writes does not depend on the webhook: for any two
    webhook settings and transports, the per-country files, the index and
    the lookups made are the same. *)
Theorem main_output_independent_of_webhook :
  forall (unicode_lower unicode_upper : str -> str)
         (countries_lookup : str -> res pycountry.country)
         (env1 env2 : option str)
         (urlopen1 urlopen2 : trace -> str -> str -> http_outcome)
         (raw : list RawRow),
    let t1 := snd (main unicode_lower unicode_upper countries_lookup env1 urlopen1
                        (Ok raw) []) in
    let t2 := snd (main unicode_lower unicode_upper countries_lookup env2 urlopen2
                        (Ok raw) []) in
    dumped_records t1 = dumped_records t2
    /\ dumped_indexes t1 = dumped_indexes t2
    /\ lookups t1 = lookups t2
    /\ slack_calls t1 = slack_calls t2.
Proof.
  intros ul uu lookup env1 env2 urlopen1 urlopen2 raw t1 t2. subst t1 t2.
  destruct (main_view ul uu lookup env1 urlopen1 raw)
    as (evs1 & post1 & -> & (R1 & I1 & S1 & L1 & _) & (R1' & I1' & S1' & L1' & _)).
  destruct (main_view ul uu lookup env2 urlopen2 raw)
    as (evs2 & post2 & -> & (R2 & I2 & S2 & L2 & _) & (R2' & I2' & S2' & L2' & _)).
  cbn [snd dumped_records dumped_indexes lookups slack_calls].
  rewrite !dumped_records_app, !dumped_indexes_app, !lookups_app, !slack_calls_app.
  cbn [dumped_records dumped_indexes lookups slack_calls].
  now rewrite R1, R2, I1, I2, S1, S2, L1, L2, R1', R2', I1', I2', S1', S2', L1', L2'.
Qed.

(** ** The sheet URL *)

Lemma hex_digit_safe (n : N) : quote_safe (hex_digit n) = true.
Proof.
  unfold hex_digit.
  destruct (nth_in_or_default (N.to_nat n) (u "0123456789ABCDEF") 48%N) as [H | ->];
    [|reflexivity].
  revert H. generalize (nth (N.to_nat n) (u "0123456789ABCDEF") 48%N). intros c H.
  simpl in H. repeat (destruct H as [<- | H]; [reflexivity|]). destruct H.
Qed.

Lemma quote_safe_ascii (c : char) : quote_safe c = true -> (c <? 128)%N = true.
Proof.
  unfold quote_safe. rewrite !orb_true_iff, !andb_true_iff, !N.leb_le, !N.eqb_eq.
  intros H. apply N.ltb_lt. lia.
Qed.

Lemma quote_byte_chars (b : N) :
  Forall (fun c => quote_safe c = true \/ c = 37%N) (quote_byte b).
Proof.
  unfold quote_byte. destruct (quote_safe b) eqn:E.
  - constructor; [now left | constructor].
  - constructor; [now right|].
    constructor; [left; apply hex_digit_safe|].
    constructor; [left; apply hex_digit_safe | constructor].
Qed.

Lemma quote_bytes_chars (bs : list N) :
  Forall (fun c => quote_safe c = true \/ c = 37%N) (flat_map quote_byte bs).
Proof.
  induction bs as [|b bs IH]; [constructor|].
  cbn [flat_map]. apply Forall_app. split; [apply quote_byte_chars | exact IH].
Qed.

Lemma utf8_encode_safe (s : str) :
  Forall (fun c => quote_safe c = true) s ->
  utf8_encode s = Some s /\ flat_map quote_byte s = s.
Proof.
  induction 1 as [|c s Hc _ [IH1 IH2]]; [now split|].
  cbn [utf8_encode flat_map]. rewrite IH1, IH2. unfold utf8_char, quote_byte.
  now rewrite (quote_safe_ascii _ Hc), Hc.
Qed.

Section ModuleMore.

Variable encode_error_text : str -> str.

Local Abbreviation sheet_url := (module_SHEET_URL encode_error_text).

Lemma sheet_id_blank_iff (env : option str) :
  match match env with
        | Some s => if truthy s then Some (strip s) else Some s
        | None => None
        end with
  | Some (_ :: _) => False
  | _ => True
  end
  <-> env = None \/ exists raw, env = Some raw /\ all_space raw.
Proof.
  destruct env as [[|c raw]|]; cbn [truthy].
  - split; [intros _; right; exists []; split; [reflexivity | constructor] | tauto].
  - destruct (strip (c :: raw)) as [|c' id] eqn:E.
    + split; [intros _; right; exists (c :: raw); split;
                [reflexivity | now apply strip_nil_iff] | tauto].
    + split; [tauto|]. intros [H | (raw' & [= <-] & H)]; [discriminate|].
      apply strip_nil_iff in H. congruence.
  - split; [now left | tauto].
Qed.

(** X19: whenever the module gets as far as the sheet URL, the URL is pure
    ASCII: the id is inserted as characters that are letters, digits, one of
    ["_.-~/"], or ["%"]. *)
Theorem sheet_url_ascii :
  forall (env : option str) (t t' : trace) (url : str),
    sheet_url env t = (Ok url, t') ->
    exists encoded_id,
      url = u "https://docs.google.com/spreadsheets/d/" ++ encoded_id
              ++ u "/export?format=csv"
      /\ Forall (fun c => quote_safe c = true \/ c = 37%N) encoded_id
      /\ is_ascii url = true.
Proof.
  intros env t t' url. unfold module_SHEET_URL.
  destruct (match env with
            | Some s => if truthy s then Some (strip s) else Some s
            | None => None
            end) as [[|c id]|]; try discriminate.
  unfold bind, lift, ret, quote. cbn [truthy negb].
  destruct (utf8_encode (c :: id)) as [bs|]; [|discriminate].
  intros [= <- _]. exists (flat_map quote_byte bs).
  pose proof (quote_bytes_chars bs) as Hchars.
  split; [reflexivity|]. split; [exact Hchars|].
  change (is_ascii (u "https://docs.google.com/spreadsheets/d/"
                      ++ flat_map quote_byte bs ++ u "/export?format=csv") = true).
  unfold is_ascii. rewrite !forallb_app. rewrite !andb_true_iff.
  split; [reflexivity|]. split; [|reflexivity].
  apply forallb_forall. intros x Hx. rewrite Forall_forall in Hchars.
  destruct (Hchars x Hx) as [H | ->]; [now apply quote_safe_ascii | reflexivity].
Qed.

(** X20: an id made of letters, digits and ["_.-~/"] only goes into the
    sheet URL as it is, after the whitespace around it is removed. *)
Theorem sheet_url_of_safe_id :
  forall (raw id : str) (t : trace),
    trimmed_of raw id ->
    id <> u "" ->
    Forall (fun c => quote_safe c = true) id ->
    sheet_url (Some raw) t
    = (Ok (u "https://docs.google.com/spreadsheets/d/" ++ id
             ++ u "/export?format=csv"), t).
Proof.
  intros raw id t Htrim Hne Hsafe. unfold module_SHEET_URL.
  assert (Hraw : truthy raw = true).
  { destruct Htrim as (l & r & -> & _). destruct id; [now elim Hne|].
    cbn [app]. now rewrite truthy_app_cons. }
  rewrite Hraw, (strip_of_trimmed Htrim).
  destruct id as [|c id]; [now elim Hne|].
  unfold bind, lift, ret, quote. cbn [truthy negb].
  now destruct (utf8_encode_safe Hsafe) as [-> ->].
Qed.

End ModuleMore.

(** ** The further properties at concrete inputs *)

Lemma main_ids_unique_witness :
  NoDup (map item_id
           (snd (u "contributors/kr.json",
                 build_json_data sample_upper (u "kr")
                   (fillna [sample_row "South Korea" "a"; sample_row "South Korea" ""])))).
Proof.
  apply (@main_ids_unique sample_lower sample_upper sample_lookup None sample_urlopen
           [sample_row "South Korea" "a"; sample_row "Wonderland" "";
            sample_row "South Korea" ""]).
  vm_compute. left. reflexivity.
Defined.

Lemma sheet_url_ascii_witness :
  exists encoded_id,
    u "https://docs.google.com/spreadsheets/d/a%20%ED%95%9C/export?format=csv"
    = u "https://docs.google.com/spreadsheets/d/" ++ encoded_id
        ++ u "/export?format=csv"
    /\ Forall (fun c => quote_safe c = true \/ c = 37%N) encoded_id
    /\ is_ascii
         (u "https://docs.google.com/spreadsheets/d/a%20%ED%95%9C/export?format=csv")
       = true.
Proof.
  apply (@sheet_url_ascii (fun s => s) (Some [97; 32; 54620]%N) [] []).
  reflexivity.
Defined.

Lemma sheet_url_of_safe_id_witness :
  module_SHEET_URL (fun s => s) (Some (u "  1AbC_-x ")) []
  = (Ok (u "https://docs.google.com/spreadsheets/d/1AbC_-x/export?format=csv"), []).
Proof.
  apply (@sheet_url_of_safe_id (fun s => s) (u "  1AbC_-x ") (u "1AbC_-x") []).
  - exists (u "  "), (u " "). split; [reflexivity|].
    split; [repeat constructor|]. split; [repeat constructor|].
    split; intros c x Hc.
    + injection Hc as <- _. reflexivity.
    + apply (f_equal (@rev _)) in Hc. rewrite rev_app_distr in Hc.
      injection Hc as <- _. reflexivity.
  - discriminate.
  - repeat constructor.
Defined.

(** * The script on a host that can refuse *)

Section HostFacts.

Variable unicode_lower : str -> str.
Variable countries_lookup : str -> res pycountry.country.
Variable env_SLACK_WEBHOOK_URL : option str.
Variable request_error : str -> option str.
Variable urlopen : trace -> str -> str -> http_outcome.
Variable console : str -> option str.

Local Abbreviation notify :=
  (Fallible.send_slack_message env_SLACK_WEBHOOK_URL request_error urlopen console).
Local Abbreviation resolve :=
  (Fallible.get_country_info unicode_lower countries_lookup env_SLACK_WEBHOOK_URL
     request_error urlopen console).
Local Abbreviation webhook := (SLACK_WEBHOOK_URL env_SLACK_WEBHOOK_URL).

(** The console raised: the result is its error for some line. *)
Local Abbreviation console_raised r :=
  (exists line text, console line = Some text /\ r = Raised (Exception text)).

Ltac console_cases :=
  repeat match goal with
         | |- context [console ?l] =>
             let E := fresh "Econsole" in destruct (console l) eqn:E
         end.



(** X7: the notifier attempts a transport exactly when the webhook variable
    holds a character that is not whitespace and [Request] accepts the
    stripped URL, whatever the console does. *)
Theorem send_slack_message_attempt_iff :
  forall (message : str) (t : trace),
    transport_attempts (snd (notify message t)) = transport_attempts t
    <-> env_SLACK_WEBHOOK_URL = None
        \/ exists raw,
             env_SLACK_WEBHOOK_URL = Some raw
             /\ (all_space raw \/ request_error (strip raw) <> None).
Proof.
  intros message t. clear unicode_lower countries_lookup.
  unfold Fallible.send_slack_message, try_except_Exception, bind, emit, Fallible.print,
    SLACK_WEBHOOK_URL.
  destruct env_SLACK_WEBHOOK_URL as [raw|].
  2: { console_cases; cbn [snd]; rewrite ?transport_attempts_app; cbn;
       rewrite ?app_nil_r; split; auto. }
  assert (Hblank : truthy raw = false \/ strip raw = [] -> all_space raw).
  { intros [H | H]; [destruct raw; [constructor | discriminate] | now apply strip_nil_iff]. }
  destruct (truthy raw) eqn:Hraw.
  - destruct (strip raw) as [|c url] eqn:Hstrip; cbn [negb truthy].
    + console_cases; cbn [snd]; rewrite ?transport_attempts_app; cbn;
        rewrite ?app_nil_r; (split; [intros _; right; exists raw; auto | reflexivity]).
    + destruct (request_error (c :: url)) as [text|] eqn:Hreq.
      * console_cases; cbn [snd]; rewrite ?transport_attempts_app; cbn;
          rewrite ?app_nil_r;
          (split; [intros _; right; exists raw; split; [reflexivity | right; congruence]
                  | reflexivity]).
      * assert (Hno : ~ (Some raw = None \/
                         exists raw', Some raw = Some raw'
                                      /\ (all_space raw'
                                          \/ request_error (strip raw') <> None))).
        { intros [H | (raw' & [= <-] & [H | H])]; [discriminate | |].
          - apply strip_nil_iff in H. congruence.
          - rewrite Hstrip in H. now apply H. }
        destruct (urlopen (t ++ [SlackCall message]) (c :: url) message) as [status|text];
          [destruct (status =? 200)%Z|];
          console_cases; cbn [snd]; rewrite ?transport_attempts_app; cbn;
          rewrite ?app_nil_r;
          (split; [|tauto]); intros H; apply (f_equal (@List.length _)) in H;
          rewrite length_app in H; simpl in H; lia.
  - destruct raw; [|discriminate]. cbn [negb truthy].
    console_cases; cbn [snd]; rewrite ?transport_attempts_app; cbn;
      rewrite ?app_nil_r; (split; [intros _; right; exists []; auto | reflexivity]).
Qed.

(** What [get_country_info] does, by the steps of its decision. *)
Lemma get_country_info_cases (name : str) (t : trace) :
  resolve name t =
  match dict_get exceptions name with
  | Some (code, full_name) => (Ok (code, full_name, flag_url_of code), t)
  | None =>
      match countries_lookup name with
      | Ok c =>
          let code := lower unicode_lower (pycountry.alpha_2 c) in
          (Ok (code, pycountry.name c, flag_url_of code), t ++ [CountriesLookup name])
      | Raised _ =>
          let code := fallback_code (lower unicode_lower) name in
          let message := warning_message name code in
          match console message with
          | Some text => (Raised (Exception text), t ++ [CountriesLookup name])
          | None =>
              match notify message (t ++ [CountriesLookup name; Print message]) with
              | (Ok _, t') => (Ok (code, name, flag_url_of code), t')
              | (Raised e, t') => (Raised e, t')
              end
          end
      end
  end.
Proof.
  unfold Fallible.get_country_info, bind at 1.
  destruct (dict_get exceptions name) as [[code full_name]|]; [reflexivity|].
  unfold try_except, bind at 1 2, emit, lift, ret.
  destruct (countries_lookup name) as [c|e]; [reflexivity|].
  cbv zeta. fold (fallback_code (lower unicode_lower) name).
  fold (warning_message name (fallback_code (lower unicode_lower) name)).
  unfold bind at 1. unfold Fallible.print at 1.
  destruct (console (warning_message name (fallback_code (lower unicode_lower) name)));
    [reflexivity|].
  rewrite <- (app_assoc t [CountriesLookup name]). cbn [app].
  unfold bind.
  destruct (notify _ _) as [[[]|e'] t']; reflexivity.
Qed.



End HostFacts.

(** ** Tags of typed cells *)

(** C8, as the code has it: the [tags] of a built record are [[]] when the
    Search Tags cell is falsy, which for text means the empty string that a
    blank cell becomes, and for a number means zero; otherwise they are the
    pieces of the text of the cell between its commas, each stripped, so
    ["a, b,c"] gives [["a"; "b"; "c"]] and a field of whitespace only gives
    one empty tag. *)
Theorem tags_split_on_commas_of_truthy_cell :
  (forall unicode_upper file_code i row,
      let field := Fallible.Search_Tags row in
      let pieces := split (u ",") (Fallible.str_of_cell field) in
      let tags :=
        Fallible.item_tags (Fallible.build_item unicode_upper file_code i row) in
      (Fallible.truthy_cell field = false -> tags = [])
      /\ (Fallible.truthy_cell field = true -> tags = map strip pieces)
      /\ (forall text, field = Fallible.CStr text ->
                       (text = u "" -> tags = [])
                       /\ (text <> u "" -> tags = map strip pieces))
      /\ join (u ",") pieces = Fallible.str_of_cell field
      /\ Forall (fun piece => ~ In 44%N piece) pieces
      /\ Forall2 trimmed_of pieces (map strip pieces))
  /\ (forall unicode_upper file_code i,
         let tags_for cell :=
           Fallible.item_tags
             (Fallible.build_item unicode_upper file_code i
                (Fallible.row_with_tags cell)) in
         tags_for (Fallible.CStr (u "a, b,c")) = [u "a"; u "b"; u "c"]
         /\ tags_for (Fallible.CStr (u "")) = []
         /\ tags_for (Fallible.CStr (u "  ")) = [u ""]
         /\ tags_for (Fallible.CInt 7) = [u "7"]
         /\ tags_for (Fallible.CInt 0) = []).
Proof.
  split; [|intros; repeat split; reflexivity].
  intros uu file_code i row field pieces tags. subst tags pieces.
  cbn [Fallible.build_item Fallible.item_tags]. fold field.
  split; [now intros ->|]. split; [now intros ->|]. split.
  { intros text Htext. rewrite Htext. cbn [Fallible.truthy_cell Fallible.str_of_cell].
    split; [now intros ->|]. intros Hne. destruct text; [now elim Hne | reflexivity]. }
  unfold split. change (u ",") with [44%N]. split; [|split].
  - apply split_go_char_join.
  - apply split_go_char_pieces. intros [].
  - generalize (split_go [44%N] 0 [] (Fallible.str_of_cell field)) as l.
    induction l; constructor; [apply strip_trimmed | assumption].
Qed.

Lemma tags_split_on_commas_of_truthy_cell_witness :
  Fallible.item_tags
    (Fallible.build_item sample_upper (u "kr") 0
       (Fallible.row_with_tags (Fallible.CInt 0))) = []
  /\ Fallible.item_tags
       (Fallible.build_item sample_upper (u "kr") 0
          (Fallible.row_with_tags (Fallible.CStr (u "a, b,c"))))
     = map strip (split (u ",") (u "a, b,c")).
Proof.
  split.
  - apply (proj1 tags_split_on_commas_of_truthy_cell sample_upper (u "kr") 0%Z
             (Fallible.row_with_tags (Fallible.CInt 0))). reflexivity.
  - apply (proj1 tags_split_on_commas_of_truthy_cell sample_upper (u "kr") 0%Z
             (Fallible.row_with_tags (Fallible.CStr (u "a, b,c")))). reflexivity.
Defined.

(** A Search Tags cell that pandas read as the number 0 gives no tag, not
    the pieces of its text, and a field of whitespace only does not give the
    empty list. *)
Lemma tags_of_zero_cell_not_split :
  Fallible.item_tags
    (Fallible.build_item sample_upper (u "kr") 0
       (Fallible.row_with_tags (Fallible.CInt 0))) = []
  /\ map strip (split (u ",") (Fallible.str_of_cell (Fallible.CInt 0))) = [u "0"]
  /\ Fallible.item_tags
       (Fallible.build_item sample_upper (u "kr") 0
          (Fallible.row_with_tags (Fallible.CStr (u "  ")))) <> [].
Proof. repeat split; (reflexivity || discriminate). Qed.

(** X2: when the Search Tags cell is truthy and its text has [n] commas,
    the record has [n + 1] tags, and no tag contains a comma or starts or
    ends with whitespace. *)
Theorem tags_count_and_shape :
  forall unicode_upper file_code i row,
    Fallible.truthy_cell (Fallible.Search_Tags row) = true ->
    let tags :=
      Fallible.item_tags (Fallible.build_item unicode_upper file_code i row) in
    List.length tags
    = S (count_char 44%N (Fallible.str_of_cell (Fallible.Search_Tags row)))
    /\ Forall (fun tag => ~ In 44%N tag /\ no_edge_space tag) tags.
Proof.
  intros uu file_code i row Htruthy tags. subst tags.
  cbn [Fallible.build_item Fallible.item_tags]. rewrite Htruthy.
  unfold split. change (u ",") with [44%N]. split.
  - rewrite length_map. apply split_go_char_length.
  - apply Forall_map.
    eapply Forall_impl; [|apply (@split_go_char_pieces 44%N _ [] (fun H => H))].
    intros piece Hpiece. split.
    + intros H. now apply strip_In in H.
    + destruct (strip_trimmed piece) as (l & r & _ & _ & _ & Hedge). exact Hedge.
Qed.

Lemma tags_count_and_shape_witness :
  List.length
    (Fallible.item_tags
       (Fallible.build_item sample_upper (u "kr") 0
          (Fallible.row_with_tags (Fallible.CStr (u "a,,b"))))) = 3
  /\ Forall (fun tag => ~ In 44%N tag /\ no_edge_space tag)
       (Fallible.item_tags
          (Fallible.build_item sample_upper (u "kr") 0
             (Fallible.row_with_tags (Fallible.CStr (u "a,,b"))))).
Proof.
  apply (@tags_count_and_shape sample_upper (u "kr") 0%Z
           (Fallible.row_with_tags (Fallible.CStr (u "a,,b")))).
  reflexivity.
Defined.

(** ** The host theorems at concrete inputs *)







(** ** Completed runs and the module level, again *)

Section RunCompleted.

Variable unicode_lower unicode_upper : str -> str.
Variable countries_lookup : str -> res pycountry.country.
Variable env_SLACK_WEBHOOK_URL : option str.
Variable urlopen : trace -> str -> str -> http_outcome.

Local Abbreviation run :=
  (main unicode_lower unicode_upper countries_lookup env_SLACK_WEBHOOK_URL urlopen).

(** X13: when a run completes, its notifier calls are one warning for each
    country that falls back, in the order of the groups, followed by the
    summary, which states the number of countries and the number of rows of
    the sheet. *)
Theorem main_notifications_when_completed :
  forall raw : list RawRow,
    fst (run (Ok raw) []) = Ok tt ->
    let countries := countries_of (fillna raw) in
    slack_calls (snd (run (Ok raw) []))
    = map (warning_for unicode_lower) (filter (falls_back countries_lookup) countries)
        ++ [summary_message (Z.of_nat (List.length countries))
                            (Z.of_nat (List.length raw))].
Proof.
  intros raw _ countries.
  destruct (main_view unicode_lower unicode_upper countries_lookup
              env_SLACK_WEBHOOK_URL urlopen raw) as (evs & post & -> & Hev & Hpost).
  cbn [snd slack_calls]. rewrite slack_calls_app. cbn [slack_calls].
  destruct Hev as (_ & _ & -> & _), Hpost as (_ & _ & -> & _).
  subst countries. unfold countries_of. now rewrite length_map.
Qed.

(** X14: when a run completes, it has looked up exactly the countries that
    are no key of the exception table, each once, in the order of the
    groups. *)
Theorem main_lookups_when_completed :
  forall raw : list RawRow,
    fst (run (Ok raw) []) = Ok tt ->
    lookups (snd (run (Ok raw) [])) = filter needs_lookup (countries_of (fillna raw))
    /\ NoDup (lookups (snd (run (Ok raw) []))).
Proof.
  intros raw _.
  destruct (main_view unicode_lower unicode_upper countries_lookup
              env_SLACK_WEBHOOK_URL urlopen raw) as (evs & post & -> & Hev & Hpost).
  cbn [snd lookups]. rewrite lookups_app. cbn [lookups].
  destruct Hev as (_ & _ & _ & -> & _), Hpost as (_ & _ & _ & -> & _).
  rewrite app_nil_r. split; [reflexivity|].
  apply NoDup_filter. fold (countries_of (fillna raw)).
  rewrite countries_of_keys. apply sorted_NoDup, keys_sorted.
Qed.

(** X16: when the webhook variable is unset, empty or whitespace only, a run
    makes no transport attempt at all. *)
Theorem main_no_transport_without_webhook :
  forall raw : list RawRow,
    (env_SLACK_WEBHOOK_URL = None
     \/ exists value, env_SLACK_WEBHOOK_URL = Some value /\ all_space value) ->
    transport_attempts (snd (run (Ok raw) [])) = [].
Proof.
  intros raw Hblank. apply webhook_blank_iff in Hblank.
  destruct (main_view unicode_lower unicode_upper countries_lookup
              env_SLACK_WEBHOOK_URL urlopen raw) as (evs & post & -> & Hev & Hpost).
  cbn [snd transport_attempts]. rewrite transport_attempts_app.
  cbn [transport_attempts].
  destruct Hev as (_ & _ & _ & _ & ->), Hpost as (_ & _ & _ & _ & ->).
  now destruct (SLACK_WEBHOOK_URL env_SLACK_WEBHOOK_URL) as [[|c url]|].
Qed.

End RunCompleted.

Section ModuleOutcomes.

Variable encode_error_text : str -> str.

Local Abbreviation sheet_url := (module_SHEET_URL encode_error_text).


End ModuleOutcomes.

Lemma main_notifications_when_completed_witness :
  List.length
    (slack_calls
       (snd (main sample_lower sample_upper sample_lookup None sample_urlopen
               (Ok [sample_row "South Korea" "a"; sample_row "Wonderland" ""]) [])))
  = 2.
Proof.
  rewrite (@main_notifications_when_completed sample_lower sample_upper sample_lookup
             None sample_urlopen
             [sample_row "South Korea" "a"; sample_row "Wonderland" ""]).
  - reflexivity.
  - reflexivity.
Defined.

Lemma main_lookups_when_completed_witness :
  lookups
    (snd (main sample_lower sample_upper sample_lookup None sample_urlopen
            (Ok [sample_row "South Korea" "a"; sample_row "Wonderland" ""]) []))
  = [u "Wonderland"].
Proof.
  rewrite (proj1 (@main_lookups_when_completed sample_lower sample_upper sample_lookup
                    None sample_urlopen
                    [sample_row "South Korea" "a"; sample_row "Wonderland" ""]
                    eq_refl)).
  reflexivity.
Defined.

Lemma main_no_transport_without_webhook_witness :
  transport_attempts
    (snd (main sample_lower sample_upper sample_lookup (Some (u "  ")) sample_urlopen
            (Ok [sample_row "South Korea" "a"; sample_row "Wonderland" ""]) []))
  = [].
Proof.
  apply (@main_no_transport_without_webhook sample_lower sample_upper sample_lookup
           (Some (u "  ")) sample_urlopen).
  right. exists (u "  "). split; [reflexivity | repeat constructor].
Defined.


(** ** The two layers *)

(** On a console and a [Request] that accept everything, the notifier and
    the resolver of [Fallible] are those of the first layer. *)
Lemma fallible_send_slack_message_accepting
    (env_SLACK_WEBHOOK_URL : option str)
    (urlopen : trace -> str -> str -> http_outcome) (message : str) (t : trace) :
  Fallible.send_slack_message env_SLACK_WEBHOOK_URL Fallible.accepts_all urlopen
    Fallible.accepts_all message t
  = send_slack_message env_SLACK_WEBHOOK_URL urlopen message t.
Proof.
  unfold Fallible.send_slack_message, send_slack_message, try_except_Exception, bind,
    emit, print, Fallible.print, Fallible.accepts_all.
  destruct (SLACK_WEBHOOK_URL env_SLACK_WEBHOOK_URL) as [[|c url]|]; reflexivity.
Qed.

Lemma fallible_get_country_info_accepting
    (unicode_lower : str -> str) (countries_lookup : str -> res pycountry.country)
    (env_SLACK_WEBHOOK_URL : option str)
    (urlopen : trace -> str -> str -> http_outcome) (name : str) (t : trace) :
  Fallible.get_country_info unicode_lower countries_lookup env_SLACK_WEBHOOK_URL
    Fallible.accepts_all urlopen Fallible.accepts_all name t
  = get_country_info unicode_lower countries_lookup env_SLACK_WEBHOOK_URL urlopen
      name t.
Proof.
  rewrite get_country_info_cases, get_country_info_run.
  destruct (dict_get exceptions name) as [[code full_name]|]; [reflexivity|].
  destruct (countries_lookup name) as [c|e]; [reflexivity|]. cbv zeta.
  unfold Fallible.accepts_all at 2.
  rewrite fallible_send_slack_message_accepting, send_slack_message_run.
  reflexivity.
Qed.

(** On text cells the tags of [Fallible] are those of the first layer. *)
Lemma fallible_tags_of_text (unicode_upper : str -> str) (file_code : str) (i : Z)
    (row : Fallible.Row) (text : str) :
  Fallible.Search_Tags row = Fallible.CStr text ->
  Fallible.item_tags (Fallible.build_item unicode_upper file_code i row)
  = tags_of text.
Proof. intros H. cbn [Fallible.build_item Fallible.item_tags]. now rewrite H. Qed.
